(** * dynamic_rest.serializers: DynamicModelSerializer

    A shallow embedding of [src/dynamic_rest/serializers.py] and the
    properties of its field resolution.

    Python dictionaries are objects with identity: the request map handed to
    a serializer is stored by reference and written through it.  The model
    therefore keeps the dictionaries in a store indexed by locations and the
    serializer methods pass that store explicitly. *)

From stdpp Require Import gmap strings list fin_maps.

Local Open Scope string_scope.
#[local] Set Warnings "-register-all".
#[local] Set Default Proof Using "Type*".

(** ** Python values that occur as request directives *)

Abbreviation loc := positive.

(** A directive is [True], [False] or a reference to a nested request map. *)
Inductive value :=
  | VBool (b : bool)
  | VDict (l : loc).

Global Instance value_eq_dec : EqDecision value.
Proof. solve_decision. Defined.

(** The store of dictionary objects. *)
Abbreviation pydict := (gmap string value).
Abbreviation heap := (gmap positive (gmap string value)).

(** ** Exceptions and the two monads *)

Inductive exn :=
  | TypeError
  | AttributeError
  | KeyError (key : string)
  | ParseError (detail : string)
  (* not a Python exception: a location outside the store, which no Python
     execution produces *)
  | DanglingReference (l : loc).

Inductive result (A : Type) :=
  | Ok (a : A)
  | Raise (e : exn).
Arguments Ok {A} a.
Arguments Raise {A} e.

Global Instance result_ret : MRet result := λ A a, Ok a.
Global Instance result_bind : MBind result := λ A B f r,
  match r with
  | Ok a => f a
  | Raise e => Raise e
  end.

(** Statements that read or write dictionaries: the store is threaded, and
    an exception keeps the writes made before it. *)
Definition M (A : Type) : Type := heap → result A * heap.

Global Instance M_ret : MRet M := λ A a h, (Ok a, h).
Global Instance M_bind : MBind M := λ A B f m h,
  match m h with
  | (Ok a, h') => f a h'
  | (Raise e, h') => (Raise e, h')
  end.

Definition raise {A} (e : exn) : M A := λ h, (Raise e, h).

(** [{}]: a new, empty dictionary object. *)
Definition alloc_dict : M value := λ h,
  let l := fresh (dom h) in (Ok (VDict l), <[l := ∅]> h).

(** Reading the dictionary object behind a reference. *)
Definition deref (h : heap) (l : loc) : result pydict :=
  match h !! l with
  | Some d => Ok d
  | None => Raise (DanglingReference l)
  end.

(** [bool(v)]: a dictionary is true when it is not empty. *)
Definition truth (h : heap) (v : value) : result bool :=
  match v with
  | VBool b => Ok b
  | VDict l => d ← deref h l; Ok (bool_decide (d ≠ ∅))
  end.

Definition truthy (v : value) : M bool := λ h, (truth h v, h).

(** [target[k] = v]: writes into the dictionary object itself; a [bool] does
    not support item assignment. *)
Definition setitem (target : value) (k : string) (v : value) : M unit := λ h,
  match target with
  | VBool _ => (Raise TypeError, h)
  | VDict l =>
      match h !! l with
      | Some d => (Ok (), <[l := <[k := v]> d]> h)
      | None => (Raise (DanglingReference l), h)
      end
  end.

(** [for x in xs: body(x)] *)
Fixpoint for_each {A} (xs : list A) (body : A → M unit) : M unit :=
  match xs with
  | [] => mret ()
  | x :: xs' => _ ← body x; for_each xs' body
  end.

(** ** Fields and serializers *)

(** The serializer fields, by the run-time type tests of [get_fields].  A
    field that has an injection target carries the [request_fields]
    attribute of that target. *)
Inductive field :=
  (* neither a BaseSerializer nor a DynamicRelationField *)
  | PlainField (deferred : option bool)
  (* a BaseSerializer that is not a ListSerializer: the target is the field *)
  | SerializerField (deferred : option bool) (request_fields : value)
  (* a ListSerializer: the target is [field.child] *)
  | ListSerializerField (deferred : option bool) (child_request_fields : value)
  (* a DynamicRelationField whose [serializer] is not a ListSerializer: the
     target is [field.serializer] *)
  | RelationField (deferred : option bool) (serializer_request_fields : value)
  (* a DynamicRelationField whose [serializer] is a ListSerializer: the
     target is [field.child]; [None] when the field has no such attribute *)
  | RelationManyField (deferred : option bool) (child_request_fields : option value).

Global Instance field_eq_dec : EqDecision field.
Proof. solve_decision. Defined.

(** [getattr(field, 'deferred', None)] *)
Definition field_deferred (f : field) : option bool :=
  match f with
  | PlainField d | SerializerField d _ | ListSerializerField d _
  | RelationField d _ | RelationManyField d _ => d
  end.

(** The [request_fields] attribute of the field's injection target. *)
Definition target_request_fields (f : field) : option value :=
  match f with
  | PlainField _ => None
  | SerializerField _ v | ListSerializerField _ v | RelationField _ v => Some v
  | RelationManyField _ ov => ov
  end.

(** Whether the field is a sub-serializer or a relation. *)
Definition is_relational (f : field) : bool :=
  match f with
  | PlainField _ => false
  | _ => true
  end.

Module Meta.
(** The attributes of the inner [Meta] class that the serializer reads;
    [None] is an attribute that is not defined. *)
Record t := mk {
  name : option string;
  plural_name : option string;
  deferred_fields : option (list string)
}.
End Meta.

(** The entries of the [context] keyword argument that [__init__] reads;
    [None] is a key that is not there. *)
Record context := {
  ctx_request_fields : option value;
  ctx_include_fields : option (list string);
  ctx_exclude_fields : option (list string)
}.

Definition empty_context : context :=
  {| ctx_request_fields := None; ctx_include_fields := None; ctx_exclude_fields := None |}.

Record DynamicModelSerializer := {
  meta : Meta.t;
  (* what ModelSerializer.get_fields() returns: an OrderedDict *)
  all_fields : list (string * field);
  request_fields : value;
  include_fields : list string;
  exclude_fields : list string
}.

(** [arg or self._context.get(key, [])] for a list argument. *)
Definition list_or_context (arg ctx_entry : option (list string)) : list string :=
  match arg with
  | Some (x :: xs) => x :: xs
  | _ => default [] ctx_entry
  end.

(** [request_fields or self._context.get('request_fields', {})].  The
    default [{}] is observable only when it is returned, and is allocated
    then. *)
Definition request_fields_or_context (arg : option value) (ctx : context) : M value :=
  t ← match arg with
      | Some v => truthy v
      | None => mret false
      end;
  if (t : bool) then mret (default (VBool true) arg)
  else match ctx_request_fields ctx with
       | Some v => mret v
       | None => alloc_dict
       end.

Definition __init__ (m : Meta.t) (fields : list (string * field))
    (include_fields exclude_fields : option (list string))
    (request_fields : option value) (ctx : context) : M DynamicModelSerializer :=
  rf ← request_fields_or_context request_fields ctx;
  let inc := list_or_context include_fields (ctx_include_fields ctx) in
  let exc := list_or_context exclude_fields (ctx_exclude_fields ctx) in
  _ ← for_each inc (λ name, setitem rf name (VBool true));
  _ ← for_each exc (λ name, setitem rf name (VBool false));
  mret {| meta := m; all_fields := fields; request_fields := rf;
          include_fields := inc; exclude_fields := exc |}.

(** [self.request_fields == True] *)
Definition id_only (self : DynamicModelSerializer) : bool :=
  bool_decide (request_fields self = VBool true).

(** [self.Meta.name] *)
Definition get_name (self : DynamicModelSerializer) : result string :=
  match Meta.name (meta self) with
  | Some n => Ok n
  | None => Raise AttributeError
  end.

(** [getattr(self.Meta, 'plural_name', self.get_name() + 's')]: the default
    is an argument, so [get_name] is called whether or not the plural name
    is defined. *)
Definition get_plural_name (self : DynamicModelSerializer) : result string :=
  n ← get_name self;
  Ok (default (n +:+ "s") (Meta.plural_name (meta self))).


(** ** Ordered dictionaries (OrderedDict) as association lists *)

(** [d.pop(k)] *)
Definition od_pop {A} (k : string) (d : list (string * A)) : result (list (string * A)) :=
  if bool_decide (k ∈ d.*1) then Ok (filter (λ p, p.1 ≠ k) d)
  else Raise (KeyError k).

(** [d[k] = v]: an existing key keeps its place, a new key goes last. *)
Fixpoint od_set {A} (k : string) (v : A) (d : list (string * A)) : list (string * A) :=
  match d with
  | [] => [(k, v)]
  | (k', v') :: d' => if decide (k' = k) then (k, v) :: d' else (k', v') :: od_set k v d'
  end.

(** [d.get(k)] *)
Fixpoint od_get {A} (k : string) (d : list (string * A)) : option A :=
  match d with
  | [] => None
  | (k', v') :: d' => if decide (k' = k) then Some v' else od_get k d'
  end.

(** ** Iteration order of [dict] and [set]

    The order in which Python 2 iterates over a dictionary or a set is
    fixed by the hashes; the model takes it as any enumeration of the
    entries. *)
Class IterationOrder := {
  iteritems : pydict → list (string * value);
  iteritems_perm : ∀ d, iteritems d ≡ₚ map_to_list d;
  set_iter : gset string → list string;
  set_iter_perm : ∀ s, set_iter s ≡ₚ elements s
}.

(** A loop that updates a local variable and may raise. *)
Fixpoint for_fold {A S} (xs : list A) (body : S → A → result S) (s : S) : result S :=
  match xs with
  | [] => Ok s
  | x :: xs' => s' ← body s x; for_fold xs' body s'
  end.

(** A loop over the items of an ordered dictionary that updates each value
    and may raise. *)
Fixpoint for_items {A} (d : list (string * A)) (body : string → A → result A)
    : result (list (string * A)) :=
  match d with
  | [] => Ok []
  | (k, v) :: d' => v' ← body k v; d'' ← for_items d' body; Ok ((k, v') :: d'')
  end.

(** [v.iteritems()] *)
Definition dict_items `{IterationOrder} (h : heap) (v : value) : result (list (string * value)) :=
  match v with
  | VBool _ => Raise AttributeError
  | VDict l => d ← deref h l; Ok (iteritems d)
  end.

(** [v.get(k, dflt)] *)
Definition dict_get (h : heap) (v : value) (k : string) (dflt : value) : result value :=
  match v with
  | VBool _ => Raise AttributeError
  | VDict l => d ← deref h l; Ok (default dflt (d !! k))
  end.

(** The message of the ParseError. *)
Definition invalid_field_name (name entity : string) : string :=
  "'" +:+ name +:+ "' is not a valid field name for '" +:+ entity +:+ "'".

(** ** Field resolution *)

(** The fields that are deferred by default: by the field's own flag or by
    [Meta.deferred_fields]. *)
Definition default_deferred (self : DynamicModelSerializer) : gset string :=
  let meta_deferred : gset string :=
    list_to_set (default [] (Meta.deferred_fields (meta self))) in
  list_to_set
    (filter (λ p : string * field,
               field_deferred p.2 = Some true ∨ p.1 ∈ meta_deferred)
            (all_fields self)).*1.

(** The body of the loop over the request map. *)
Definition apply_override (self : DynamicModelSerializer)
    (serializer_fields : list (string * field))
    (deferred : gset string) (item : string * value) : result (gset string) :=
  let '(name, include) := item in
  if bool_decide (name ∉ serializer_fields.*1) then
    entity ← get_name self;
    Raise (ParseError (invalid_field_name name entity))
  else if bool_decide (include ≠ VBool false) && bool_decide (name ∈ deferred) then
    Ok (deferred ∖ {[name]})
  else if bool_decide (include = VBool false) then
    Ok (deferred ∪ {[name]})
  else Ok deferred.

(** The body of the injection loop: [inject.request_fields =
    request_fields.get(name, True)] on the field's target, if it has one. *)
Definition inject_request (h : heap) (request_fields : value)
    (name : string) (f : field) : result field :=
  match f with
  | PlainField d => Ok (PlainField d)
  | SerializerField d _ =>
      v ← dict_get h request_fields name (VBool true); Ok (SerializerField d v)
  | ListSerializerField d _ =>
      v ← dict_get h request_fields name (VBool true); Ok (ListSerializerField d v)
  | RelationField d _ =>
      v ← dict_get h request_fields name (VBool true); Ok (RelationField d v)
  | RelationManyField d None => Raise AttributeError
  | RelationManyField d (Some _) =>
      v ← dict_get h request_fields name (VBool true); Ok (RelationManyField d (Some v))
  end.

Definition get_fields `{IterationOrder} (h : heap) (self : DynamicModelSerializer)
    : result (list (string * field)) :=
  if id_only self then Ok []
  else
    let serializer_fields := all_fields self in
    let request_fields := request_fields self in
    let deferred := default_deferred self in
    (* apply request overrides *)
    t ← truth h request_fields;
    deferred ← (if (t : bool) then
                  items ← dict_items h request_fields;
                  for_fold items (apply_override self serializer_fields) deferred
                else Ok deferred);
    (* remove any deferred fields from the base list *)
    serializer_fields ← for_fold (set_iter deferred) (λ sf name, od_pop name sf)
                                 serializer_fields;
    (* inject request_fields into sub-serializers *)
    for_items serializer_fields (inject_request h request_fields).

(** ** Representation *)

(** The values a representation holds. *)
Inductive pyval :=
  | PNone
  | PBool (b : bool)
  | PInt (z : Z)
  | PStr (s : string)
  | PList (xs : list pyval)
  | PDict (d : list (string * pyval)).

Section representation.
(** Model instances and [ModelSerializer.to_representation] belong to the
    framework. *)
Context {instance : Type}.
Variable pk : instance → pyval.
Variable super_to_representation :
  heap → DynamicModelSerializer → instance → result (list (string * pyval)).

Definition to_representation (h : heap) (self : DynamicModelSerializer)
    (inst : instance) : result pyval :=
  if id_only self then Ok (pk inst)
  else
    representation ← super_to_representation h self inst;
    (* save the plural name and id *)
    plural ← get_plural_name self;
    let representation := od_set "_name" (PStr plural) representation in
    let representation := od_set "_pk" (pk inst) representation in
    Ok (PDict representation).
End representation.

(** ** Closed forms used in the statements *)

(** The outcome of the override loop for one name: an explicit [False]
    excludes it, any other directive includes it, and a name that is not
    requested keeps its default. *)
Definition excluded (self : DynamicModelSerializer) (d : pydict) (name : string) : Prop :=
  match d !! name with
  | Some v => v = VBool false
  | None => name ∈ default_deferred self
  end.

Global Instance excluded_dec self d name : Decision (excluded self d name).
Proof. unfold excluded. destruct (d !! name); apply _. Defined.

(** A DynamicRelationField over a list serializer that has no [child]. *)
Definition child_missing (f : field) : bool :=
  match f with
  | RelationManyField _ None => true
  | _ => false
  end.

(** The field after its target's [request_fields] has been set to [v]. *)
Definition set_target (f : field) (v : value) : field :=
  match f with
  | PlainField d => PlainField d
  | SerializerField d _ => SerializerField d v
  | ListSerializerField d _ => ListSerializerField d v
  | RelationField d _ => RelationField d v
  | RelationManyField d ov => RelationManyField d ((λ _, v) <$> ov)
  end.

(** The request map after the two merge loops of [__init__]. *)
Definition merge_names (inc exc : list string) (d : pydict) : pydict :=
  foldl (λ d k, <[k := VBool false]> d) (foldl (λ d k, <[k := VBool true]> d) d inc) exc.

(** The first name of the request map, in iteration order, that is not a
    serializer field. *)
Definition first_unknown `{IterationOrder} (self : DynamicModelSerializer) (d : pydict)
    : option string :=
  head (filter (λ k, k ∉ (all_fields self).*1) (iteritems d).*1).

(** An iteration order, for running the model. *)
Definition canonical_order : IterationOrder :=
  {| iteritems := map_to_list; iteritems_perm := λ d, reflexivity _;
     set_iter := elements; set_iter_perm := λ s, reflexivity _ |}.

(** The names of the serializer fields. *)
Definition declared (self : DynamicModelSerializer) : gset string :=
  list_to_set (all_fields self).*1.

(** Every DynamicRelationField over a list serializer has its [child]. *)
Definition targets_present (fields : list (string * field)) : bool :=
  forallb (λ p, negb (child_missing p.2)) fields.

(** ** Example schemas *)

Module Example.
(** Person: name, age, email (deferred by its flag), bio (deferred by the
    Meta list), friends (a relation to many persons). *)
Definition person_meta : Meta.t :=
  Meta.mk (Some "person") (Some "people") (Some ["bio"]).
Definition person_fields : list (string * field) :=
  [("name", PlainField None); ("age", PlainField (Some false));
   ("email", PlainField (Some true)); ("bio", PlainField None)].

(** Post: title, author (a relation to one person). *)
Definition post_meta : Meta.t := Meta.mk (Some "post") None None.
Definition post_fields : list (string * field) :=
  [("title", PlainField None); ("author", RelationField (Some false) (VBool false))].

(** A serializer class whose Meta defines no name. *)
Definition nameless_meta : Meta.t := Meta.mk None (Some "things") None.

Definition serializer (m : Meta.t) (fields : list (string * field)) (rf : value)
    : DynamicModelSerializer :=
  {| meta := m; all_fields := fields; request_fields := rf;
     include_fields := []; exclude_fields := [] |}.

(** Model instances: a primary key and nothing else. *)
Definition pk (inst : Z) : pyval := PInt inst.
Definition super_to_representation (h : heap) (self : DynamicModelSerializer)
    (inst : Z) : result (list (string * pyval)) :=
  Ok [].

(** The store: request maps [{email: True}], [{}], [{author: {email:
    True}, title: False}], [{email: False}] and [{nickname: True, zip:
    True}]. *)
Definition store : heap :=
  {[ 1%positive := {[ "email" := VBool true ]};
     2%positive := ∅;
     3%positive := {[ "author" := VDict 1; "title" := VBool false ]};
     4%positive := {[ "email" := VBool false ]};
     5%positive := {[ "nickname" := VBool true; "zip" := VBool true ]} ]}.
End Example.

(** The directive that the serializer's request map holds for a name. *)
Definition directive (h : heap) (self : DynamicModelSerializer) (name : string)
    : option value :=
  match request_fields self with
  | VBool _ => None
  | VDict l => d ← h !! l; d !! name
  end.

(** The directive is a nested request map. *)
Definition is_nested (directive : option value) : bool :=
  match directive with
  | Some (VDict _) => true
  | _ => false
  end.

(** The argument of [__init__] is false in a boolean context. *)
Definition falsy (h : heap) (arg : option value) : Prop :=
  match arg with
  | None => True
  | Some v => truth h v = Ok false
  end.

(** * Properties *)

(** Closed decidable goals. *)
Local Ltac by_computation :=
  lazymatch goal with |- ?P => apply (@bool_decide_unpack P _) end;
  vm_compute; exact I.

(** ** Loops *)

Lemma for_each_setitem (h : heap) (l : loc) (d : pydict) (v : value) (names : list string) :
  h !! l = Some d →
  for_each names (λ name, setitem (VDict l) name v) h
  = (Ok (), <[l := foldl (λ d k, <[k := v]> d) d names]> h).
Proof.
  revert h d. induction names as [|k names IH]; intros h d Hl.
  - cbn. by rewrite insert_id.
  - cbn. unfold mbind, M_bind, setitem at 1. rewrite Hl.
    erewrite IH by apply lookup_insert_eq.
    by rewrite insert_insert_eq.
Qed.

Lemma for_each_setitem_bool (h : heap) (b : bool) (v : value) (k : string) (names : list string) :
  for_each (k :: names) (λ name, setitem (VBool b) name v) h = (Raise TypeError, h).
Proof. reflexivity. Qed.

Lemma foldl_insert_lookup (v : value) (names : list string) (d : pydict) (k : string) :
  foldl (λ d k, <[k := v]> d) d names !! k
  = if decide (k ∈ names) then Some v else d !! k.
Proof.
  revert d. induction names as [|n names IH]; intros d; cbn.
  - done.
  - rewrite IH. destruct (decide (k ∈ names)) as [Hin|Hin].
    + rewrite decide_True; [done | by right].
    + destruct (decide (k = n)) as [->|Hne].
      * rewrite decide_True by left. apply lookup_insert_eq.
      * rewrite decide_False, lookup_insert_ne; [done | congruence |].
        intros [?|?]%elem_of_cons; done.
Qed.

Lemma for_items_keys {A} (body : string → A → result A) (d d' : list (string * A)) :
  for_items d body = Ok d' → d'.*1 = d.*1.
Proof.
  revert d'. induction d as [|[k v] d IH]; intros d'; cbn.
  - by intros [= <-].
  - destruct (body k v) as [v'|]; cbn; [|done].
    destruct (for_items d body) as [d''|]; cbn; [|done].
    intros [= <-]. cbn. f_equal. by apply IH.
Qed.

Lemma for_items_elem {A} (body : string → A → result A) (d d' : list (string * A)) k v' :
  for_items d body = Ok d' → (k, v') ∈ d' →
  ∃ v, (k, v) ∈ d ∧ body k v = Ok v'.
Proof.
  revert d'. induction d as [|[k0 v0] d IH]; intros d'; cbn.
  - intros [= <-] Hin. by apply elem_of_nil in Hin.
  - destruct (body k0 v0) as [v0'|] eqn:Hb; cbn; [|done].
    destruct (for_items d body) as [d''|]; cbn; [|done].
    intros [= <-] [[= -> ->]|Hin]%elem_of_cons.
    + exists v0. split; [left | done].
    + destruct (IH d'' eq_refl Hin) as (v & ? & ?). exists v. split; [by right | done].
Qed.

Lemma for_items_total {A} (body : string → A → result A) (f : string → A → A)
    (d : list (string * A)) :
  (∀ k v, (k, v) ∈ d → body k v = Ok (f k v)) →
  for_items d body = Ok ((λ p, (p.1, f p.1 p.2)) <$> d).
Proof.
  induction d as [|[k v] d IH]; intros Hb; cbn; [done|].
  rewrite (Hb k v) by left. cbn.
  rewrite IH; [done|]. intros k' v' ?. apply Hb. by right.
Qed.

Lemma filter_id {A} (P : A → Prop) `{!∀ x, Decision (P x)} (l : list A) :
  (∀ x, x ∈ l → P x) → filter P l = l.
Proof.
  induction l as [|x l IH]; intros HP; [done|].
  rewrite filter_cons_True by (apply HP; left).
  f_equal. apply IH. intros y ?. apply HP. by right.
Qed.

Lemma pop_fold {A} (names : list string) (sf : list (string * A)) :
  NoDup names → (∀ n, n ∈ names → n ∈ sf.*1) →
  for_fold names (λ sf name, od_pop name sf) sf = Ok (filter (λ p, p.1 ∉ names) sf).
Proof.
  revert sf. induction names as [|n names IH]; intros sf Hnd Hin; cbn.
  - f_equal. symmetry. apply filter_id. intros p _ ?%elem_of_nil. done.
  - apply NoDup_cons in Hnd as [Hn Hnd].
    unfold od_pop at 2. rewrite bool_decide_eq_true_2 by (apply Hin; left). cbn.
    rewrite IH; [|done|].
    + f_equal. rewrite list_filter_filter. apply list_filter_iff.
      intros [k v]; cbn. rewrite elem_of_cons. tauto.
    + intros n' Hn'. assert (n' ≠ n) by congruence.
      specialize (Hin n' ltac:(by right)).
      apply list_elem_of_fmap in Hin as ([k v] & -> & Hkv).
      apply list_elem_of_fmap. exists (k, v). split; [done|].
      apply list_elem_of_filter. done.
Qed.

(** ** The override loop *)

Lemma apply_override_valid self fields D name include :
  name ∈ fields.*1 →
  ∃ D', apply_override self fields D (name, include) = Ok D' ∧
        ∀ x, x ∈ D' ↔ (x = name ∧ include = VBool false) ∨ (x ≠ name ∧ x ∈ D).
Proof.
  intros Hin. unfold apply_override.
  rewrite bool_decide_eq_false_2 by (intros Hn; by apply Hn).
  destruct (decide (include = VBool false)) as [->|Hinc].
  - rewrite (bool_decide_eq_false_2 (_ ≠ _)) by (intros Hn; by apply Hn). cbn.
    eexists. split; [done|]. intros x.
    rewrite elem_of_union, elem_of_singleton.
    destruct (decide (x = name)); intuition congruence.
  - rewrite (bool_decide_eq_true_2 (_ ≠ _)) by done. cbn.
    case_bool_decide.
    + eexists. split; [done|]. intros x.
      rewrite elem_of_difference, elem_of_singleton.
      destruct (decide (x = name)); intuition congruence.
    + rewrite bool_decide_eq_false_2 by done.
      eexists. split; [done|]. intros x.
      destruct (decide (x = name)); intuition congruence.
Qed.

Lemma override_fold self fields items D :
  NoDup items.*1 → (∀ k, k ∈ items.*1 → k ∈ fields.*1) →
  ∃ D', for_fold items (apply_override self fields) D = Ok D' ∧
        ∀ x, x ∈ D' ↔ (x, VBool false) ∈ items ∨ ((x ∉ items.*1) ∧ x ∈ D).
Proof.
  revert D. induction items as [|[k v] items IH]; intros D Hnd Hval.
  - exists D. split; [done|]. intros x. rewrite elem_of_nil. cbn.
    rewrite elem_of_nil. tauto.
  - cbn in Hnd. apply NoDup_cons in Hnd as [Hk Hnd].
    destruct (apply_override_valid self fields D k v) as (D1 & HD1 & Hmem1);
      [apply Hval; left|].
    destruct (IH D1 Hnd) as (D2 & HD2 & Hmem2);
      [intros k' ?; apply Hval; by right|].
    exists D2. split; [cbn -[apply_override]; by rewrite HD1|].
    intros x. rewrite Hmem2, Hmem1. cbn. rewrite !elem_of_cons.
    assert ((x, VBool false) ∈ items → x ∈ items.*1).
    { intros ?. apply list_elem_of_fmap. by exists (x, VBool false). }
    split.
    + intros [?|[? [[-> ->]|[? ?]]]]; [by left; right|by left; left|].
      right. split; [|done]. by intros [?|?].
    + intros [[[= -> ->]|?]|[Hx ?]].
      * right. split; [done|]. by left.
      * by left.
      * right. split; [tauto|]. right. split; [tauto|done].
Qed.

Lemma override_fold_unknown self fields items D n :
  head (filter (λ k, k ∉ fields.*1) items.*1) = Some n →
  for_fold items (apply_override self fields) D
  = (entity ← get_name self; Raise (ParseError (invalid_field_name n entity))).
Proof.
  revert D. induction items as [|[k v] items IH]; intros D; [done|].
  cbn [fmap list_fmap fst]. rewrite filter_cons. cbn [fst].
  destruct (decide (k ∉ fields.*1)) as [Hk|Hk]; cbn [head].
  - intros [= ->]. cbn. rewrite bool_decide_eq_true_2 by done.
    by destruct (get_name self).
  - intros Hn.
    destruct (apply_override_valid self fields D k v) as (D1 & HD1 & _).
    { by destruct (decide (k ∈ fields.*1)). }
    cbn -[apply_override]. rewrite HD1. cbn -[apply_override]. by apply IH.
Qed.

Section resolution.
Context `{IterationOrder}.

Lemma iteritems_NoDup (d : pydict) : NoDup (iteritems d).*1.
Proof. rewrite iteritems_perm. apply NoDup_fst_map_to_list. Qed.

Lemma elem_of_iteritems (d : pydict) k v : (k, v) ∈ iteritems d ↔ d !! k = Some v.
Proof. rewrite iteritems_perm. apply elem_of_map_to_list. Qed.

Lemma elem_of_iteritems_keys (d : pydict) k : k ∈ (iteritems d).*1 ↔ is_Some (d !! k).
Proof.
  rewrite list_elem_of_fmap. split.
  - intros ([k' v] & -> & Hin). apply elem_of_iteritems in Hin. by exists v.
  - intros [v Hv]. exists (k, v). split; [done|]. by apply elem_of_iteritems.
Qed.

Lemma set_iter_NoDup (s : gset string) : NoDup (set_iter s).
Proof. rewrite set_iter_perm. apply NoDup_elements. Qed.

Lemma elem_of_set_iter (s : gset string) x : x ∈ set_iter s ↔ x ∈ s.
Proof. rewrite set_iter_perm. apply elem_of_elements. Qed.

Lemma default_deferred_declared self x :
  x ∈ default_deferred self → x ∈ (all_fields self).*1.
Proof.
  unfold default_deferred. rewrite elem_of_list_to_set, !list_elem_of_fmap.
  intros (p & -> & Hp). exists p. split; [done|].
  by apply list_elem_of_filter in Hp as [_ ?].
Qed.

Lemma elem_of_default_deferred self x :
  x ∈ default_deferred self ↔
  ∃ f, (x, f) ∈ all_fields self ∧
       (field_deferred f = Some true
        ∨ x ∈ default [] (Meta.deferred_fields (meta self))).
Proof.
  unfold default_deferred. rewrite elem_of_list_to_set, list_elem_of_fmap. split.
  - intros ([k f] & -> & Hp). apply list_elem_of_filter in Hp as [Hp ?].
    exists f. split; [done|]. cbn in Hp. by rewrite elem_of_list_to_set in Hp.
  - intros (f & Hin & Hd). exists (x, f). split; [done|].
    apply list_elem_of_filter. split; [|done]. cbn. by rewrite elem_of_list_to_set.
Qed.

Lemma truth_dict (h : heap) l d : h !! l = Some d → truth h (VDict l) = Ok (bool_decide (d ≠ ∅)).
Proof. intros Hl. cbn. unfold deref. by rewrite Hl. Qed.

(** The override phase of [get_fields] on a request map all of whose
    names are serializer fields. *)
Lemma overrides_resolved h self l d :
  h !! l = Some d →
  (∀ k, is_Some (d !! k) → k ∈ (all_fields self).*1) →
  ∃ D, (if bool_decide (d ≠ ∅) then
          items ← dict_items h (VDict l);
          for_fold items (apply_override self (all_fields self)) (default_deferred self)
        else Ok (default_deferred self)) = Ok D
       ∧ ∀ x, x ∈ D ↔ excluded self d x.
Proof.
  intros Hl Hval. cbn. unfold deref. rewrite Hl. cbn.
  case_bool_decide as Hd.
  - destruct (override_fold self (all_fields self) (iteritems d) (default_deferred self))
      as (D & HD & Hmem).
    { apply iteritems_NoDup. }
    { intros k ?%elem_of_iteritems_keys. by apply Hval. }
    exists D. split; [done|]. intros x. rewrite Hmem.
    rewrite elem_of_iteritems, elem_of_iteritems_keys. unfold excluded.
    destruct (d !! x) as [v|] eqn:Hx.
    + split; [intros [[= ->]|[[] _]]; eauto | intros ->; by left].
    + split; [intros [?|[_ ?]]; done | intros ?; right; split; [|done]].
      by intros [? ?].
  - exists (default_deferred self). split; [done|]. intros x. unfold excluded.
    assert (d = ∅) as -> by (by destruct (decide (d = ∅))).
    by rewrite lookup_empty.
Qed.

Lemma get_fields_dict h self l d :
  request_fields self = VDict l → h !! l = Some d →
  (∀ k, is_Some (d !! k) → k ∈ (all_fields self).*1) →
  get_fields h self
  = for_items (filter (λ p, ¬ excluded self d p.1) (all_fields self))
              (inject_request h (VDict l)).
Proof.
  intros Hrf Hl Hval. unfold get_fields, id_only.
  rewrite bool_decide_eq_false_2 by (rewrite Hrf; done).
  rewrite Hrf, (truth_dict h l d Hl).
  destruct (overrides_resolved h self l d Hl Hval) as (D & HD & Hmem).
  cbn -[for_items dict_items]. rewrite HD.
  cbn -[for_items]. rewrite pop_fold.
  - cbn -[for_items]. f_equal. apply list_filter_iff.
    intros [k f]. cbn. by rewrite elem_of_set_iter, Hmem.
  - apply set_iter_NoDup.
  - intros n Hn%elem_of_set_iter%Hmem. unfold excluded in Hn.
    destruct (d !! n) as [v|] eqn:Hd.
    + apply Hval. by exists v.
    + by apply default_deferred_declared.
Qed.
End resolution.

(** ** Construction *)

Lemma request_fields_or_context_arg h ctx v :
  truth h v = Ok true →
  request_fields_or_context (Some v) ctx h = (Ok v, h).
Proof.
  intros Ht. unfold request_fields_or_context, truthy. cbn.
  unfold mbind, M_bind. by rewrite Ht.
Qed.

Lemma request_fields_or_context_inherited h ctx arg v :
  falsy h arg → ctx_request_fields ctx = Some v →
  request_fields_or_context arg ctx h = (Ok v, h).
Proof.
  intros Hf Hc. unfold request_fields_or_context, truthy, mbind, M_bind.
  destruct arg as [w|]; cbn in *; [rewrite Hf|]; by rewrite Hc.
Qed.

Lemma request_fields_or_context_fresh h ctx arg :
  falsy h arg → ctx_request_fields ctx = None →
  request_fields_or_context arg ctx h
  = (Ok (VDict (fresh (dom h))), <[fresh (dom h) := ∅]> h).
Proof.
  intros Hf Hc. unfold request_fields_or_context, truthy, mbind, M_bind.
  destruct arg as [w|]; cbn in *; [rewrite Hf|]; by rewrite Hc.
Qed.

Lemma init_dict m fields inc exc arg ctx h h1 l d :
  request_fields_or_context arg ctx h = (Ok (VDict l), h1) →
  h1 !! l = Some d →
  let inc' := list_or_context inc (ctx_include_fields ctx) in
  let exc' := list_or_context exc (ctx_exclude_fields ctx) in
  __init__ m fields inc exc arg ctx h
  = (Ok {| meta := m; all_fields := fields; request_fields := VDict l;
           include_fields := inc'; exclude_fields := exc' |},
     <[l := merge_names inc' exc' d]> h1).
Proof.
  intros Hrf Hl inc' exc'. unfold __init__.
  unfold mbind at 1, M_bind at 1. rewrite Hrf.
  unfold mbind at 1, M_bind at 1. fold inc'.
  rewrite (for_each_setitem h1 l d) by done.
  unfold mbind at 1, M_bind at 1. fold exc'.
  erewrite for_each_setitem by apply lookup_insert_eq.
  by rewrite insert_insert_eq.
Qed.

Lemma merge_names_lookup inc exc d k :
  merge_names inc exc d !! k
  = if decide (k ∈ exc) then Some (VBool false)
    else if decide (k ∈ inc) then Some (VBool true)
    else d !! k.
Proof. unfold merge_names. by rewrite !foldl_insert_lookup. Qed.

Lemma filter_fst_fmap {A} (P : string → Prop) (Q : string * A → Prop)
    `{!∀ k, Decision (P k), !∀ p, Decision (Q p)} (l : list (string * A)) :
  (∀ p, Q p ↔ P p.1) → (filter Q l).*1 = filter P l.*1.
Proof.
  intros HPQ. induction l as [|[k v] l IH]; [done|].
  cbn [fmap list_fmap fst]. rewrite !filter_cons.
  destruct (decide (Q (k, v))) as [HQ|HQ], (decide (P k)) as [HP|HP]; cbn;
    rewrite ?IH; try done; exfalso.
  - by apply HP, (HPQ (k, v)).
  - by apply HQ, (HPQ (k, v)).
Qed.

Lemma inject_request_dict h l d name f :
  h !! l = Some d → child_missing f = false →
  inject_request h (VDict l) name f
  = Ok (set_target f (default (VBool true) (d !! name))).
Proof.
  intros Hl Hc. destruct f as [?|? ?|? ?|? ?|? [?|]]; cbn; unfold deref;
    rewrite ?Hl; done.
Qed.

Lemma inject_request_target h rf name f f' :
  inject_request h rf name f = Ok f' → is_relational f' = true →
  ∃ l d, rf = VDict l ∧ h !! l = Some d
         ∧ target_request_fields f' = Some (default (VBool true) (d !! name)).
Proof.
  intros Hinj Hrel.
  assert (∀ v, dict_get h rf name (VBool true) = Ok v →
            ∃ l d, rf = VDict l ∧ h !! l = Some d
                   ∧ v = default (VBool true) (d !! name)) as Hget.
  { intros v. destruct rf as [b|l]; cbn; [done|]. unfold deref.
    destruct (h !! l) as [d|] eqn:Hl; cbn; [|done]. intros [= <-]. by exists l, d. }
  destruct (dict_get h rf name (VBool true)) as [v|] eqn:Hv.
  - destruct (Hget v eq_refl) as (l & d & -> & Hl & ->).
    exists l, d. split; [done|]. split; [done|].
    destruct f as [?|? ?|? ?|? ?|? [?|]]; cbn -[dict_get] in Hinj;
      rewrite ?Hv in Hinj; cbn in Hinj; simplify_eq; cbn in *; done.
  - destruct f as [?|? ?|? ?|? ?|? [?|]]; cbn -[dict_get] in Hinj;
      rewrite ?Hv in Hinj; cbn in Hinj; simplify_eq; cbn in *; done.
Qed.

Lemma od_get_set_eq {A} k (v : A) d : od_get k (od_set k v d) = Some v.
Proof.
  induction d as [|[k' v'] d IH]; cbn.
  - by rewrite decide_True.
  - destruct (decide (k' = k)) as [->|Hne]; cbn.
    + by rewrite decide_True.
    + by rewrite decide_False.
Qed.

Lemma od_get_set_ne {A} k k' (v : A) d : k ≠ k' → od_get k' (od_set k v d) = od_get k' d.
Proof.
  intros Hne. induction d as [|[k0 v0] d IH]; cbn.
  - by rewrite decide_False.
  - destruct (decide (k0 = k)) as [->|?]; cbn.
    + by rewrite !decide_False.
    + destruct (decide (k0 = k')); done.
Qed.

(** ** Field resolution on a request map *)

Lemma declared_valid self (d : pydict) :
  dom d ⊆ declared self → ∀ k, is_Some (d !! k) → k ∈ (all_fields self).*1.
Proof.
  intros Hsub k Hk. apply elem_of_dom in Hk. apply Hsub in Hk.
  unfold declared in Hk. by rewrite elem_of_list_to_set in Hk.
Qed.

Lemma targets_present_elem fields k f :
  targets_present fields = true → (k, f) ∈ fields → child_missing f = false.
Proof.
  unfold targets_present. rewrite forallb_forall. intros Hall Hin.
  apply list_elem_of_In, Hall in Hin. cbn in Hin. by destruct (child_missing f).
Qed.

Section resolution_ok.
Context `{IterationOrder}.

(** [get_fields] in closed form. *)
Lemma get_fields_ok h self l d :
  request_fields self = VDict l → h !! l = Some d →
  dom d ⊆ declared self → targets_present (all_fields self) = true →
  get_fields h self
  = Ok ((λ p, (p.1, set_target p.2 (default (VBool true) (d !! p.1))))
          <$> filter (λ p, ¬ excluded self d p.1) (all_fields self)).
Proof.
  intros Hrf Hl Hval Htg.
  rewrite (get_fields_dict h self l d Hrf Hl (declared_valid self d Hval)).
  apply (for_items_total _ (λ k f, set_target f (default (VBool true) (d !! k)))).
  intros k f [_ Hin]%list_elem_of_filter.
  apply inject_request_dict; [done|]. by eapply targets_present_elem.
Qed.

Lemma get_fields_ok_keys h self l d fs :
  request_fields self = VDict l → h !! l = Some d →
  dom d ⊆ declared self → get_fields h self = Ok fs →
  fs.*1 = filter (λ k, ¬ excluded self d k) (all_fields self).*1.
Proof.
  intros Hrf Hl Hval.
  rewrite (get_fields_dict h self l d Hrf Hl (declared_valid self d Hval)).
  intros ->%for_items_keys. by apply filter_fst_fmap.
Qed.

(** A request map with a name that is not a serializer field. *)
Lemma get_fields_unknown h self l d n :
  request_fields self = VDict l → h !! l = Some d →
  first_unknown self d = Some n →
  get_fields h self
  = (entity ← get_name self; Raise (ParseError (invalid_field_name n entity))).
Proof.
  intros Hrf Hl Hn. unfold get_fields, id_only.
  rewrite bool_decide_eq_false_2 by (rewrite Hrf; done).
  rewrite Hrf, (truth_dict h l d Hl). cbn -[for_items for_fold].
  rewrite bool_decide_eq_true_2.
  - unfold deref. rewrite Hl. cbn -[for_items for_fold].
    rewrite (override_fold_unknown _ _ _ _ n Hn). by destruct (get_name self).
  - intros ->. unfold first_unknown in Hn.
    pose proof (iteritems_perm ∅) as Hp. rewrite map_to_list_empty in Hp.
    apply Permutation_nil_r in Hp. by rewrite Hp in Hn.
Qed.

Lemma first_unknown_exists self (d : pydict) n :
  n ∈ dom d → n ∉ declared self → is_Some (first_unknown self d).
Proof.
  intros Hd Hn. unfold first_unknown.
  destruct (filter _ _) as [|x xs] eqn:Hf; [|by eexists].
  exfalso. eapply (filter_nil_not_elem_of _ _ n Hf).
  - unfold declared in Hn. by rewrite elem_of_list_to_set in Hn.
  - apply elem_of_iteritems_keys. by apply elem_of_dom.
Qed.

Lemma first_unknown_Some self (d : pydict) n :
  first_unknown self d = Some n → n ∈ dom d ∧ n ∉ declared self.
Proof.
  unfold first_unknown. intros Hh.
  assert (n ∈ filter (λ k, k ∉ (all_fields self).*1) (iteritems d).*1) as Hin.
  { destruct (filter _ _) as [|x xs]; [done|]. injection Hh as ->. left. }
  apply list_elem_of_filter in Hin as [Hn Hin]. split.
  - apply elem_of_dom. by apply elem_of_iteritems_keys.
  - unfold declared. by rewrite elem_of_list_to_set.
Qed.
End resolution_ok.

Section resolution_inversion.
Context `{IterationOrder}.

Lemma first_unknown_None self (d : pydict) :
  first_unknown self d = None → dom d ⊆ declared self.
Proof.
  unfold first_unknown. intros Hh k Hk.
  destruct (filter _ _) as [|x xs] eqn:Hf; [|done].
  unfold declared. rewrite elem_of_list_to_set.
  destruct (decide (k ∈ (all_fields self).*1)) as [|Hn]; [done|].
  exfalso. eapply (filter_nil_not_elem_of _ _ k Hf); [done|].
  apply elem_of_iteritems_keys. by apply elem_of_dom.
Qed.

(** A relational field of a resolved field set: the serializer holds a
    request map, all of its names are serializer fields, the field is not
    excluded, and its target holds the directive or [True]. *)
Lemma get_fields_relational h self fs b fld :
  get_fields h self = Ok fs → (b, fld) ∈ fs → is_relational fld = true →
  ∃ l d, request_fields self = VDict l ∧ h !! l = Some d
         ∧ dom d ⊆ declared self ∧ ¬ excluded self d b
         ∧ target_request_fields fld = Some (default (VBool true) (d !! b)).
Proof.
  intros Hgf Hin Hrel.
  destruct (request_fields self) as [[]|l] eqn:Hrf.
  - unfold get_fields, id_only in Hgf. rewrite Hrf in Hgf. cbn in Hgf.
    injection Hgf as <-. by apply elem_of_nil in Hin.
  - exfalso. unfold get_fields, id_only in Hgf. rewrite Hrf in Hgf.
    cbn -[for_items for_fold] in Hgf.
    destruct (for_fold _ _ _) as [sf|]; cbn -[for_items] in Hgf; [|done].
    destruct (for_items_elem _ _ _ _ _ Hgf Hin) as (f & _ & Hinj).
    by destruct (inject_request_target _ _ _ _ _ Hinj Hrel) as (? & ? & ? & _).
  - destruct (h !! l) as [d|] eqn:Hl.
    2: { unfold get_fields, id_only in Hgf. rewrite Hrf in Hgf.
         cbn in Hgf. unfold deref in Hgf. by rewrite Hl in Hgf. }
    destruct (first_unknown self d) as [n|] eqn:Hfu.
    { rewrite (get_fields_unknown h self l d n Hrf Hl Hfu) in Hgf.
      by destruct (get_name self). }
    apply first_unknown_None in Hfu.
    rewrite (get_fields_dict h self l d Hrf Hl (declared_valid self d Hfu)) in Hgf.
    destruct (for_items_elem _ _ _ _ _ Hgf Hin) as (f & Hf & Hinj).
    apply list_elem_of_filter in Hf as [Hex _]. cbn in Hex.
    destruct (inject_request_target _ _ _ _ _ Hinj Hrel)
      as (l' & d' & [= <-] & Hl' & Htarget).
    rewrite Hl in Hl'. injection Hl' as <-.
    by exists l, d.
Qed.
End resolution_inversion.

(** ** The claims about field resolution *)

(** C1. On a request map whose names are all serializer fields, a field
    that is deferred by its own flag or by [Meta.deferred_fields] and is
    not named in the map is not in the resolved field set; a field that the
    map names with [True] or with a nested map is in it; and a field that
    is not deferred and not named is in it as well. *)
Theorem deferred_unless_requested `{IterationOrder} (h : heap) self l (d : pydict) :
  request_fields self = VDict l → h !! l = Some d →
  dom d ⊆ declared self → targets_present (all_fields self) = true →
  ∃ fs, get_fields h self = Ok fs ∧
    ∀ name fld, (name, fld) ∈ all_fields self →
      (field_deferred fld = Some true
       ∨ name ∈ default [] (Meta.deferred_fields (meta self)) →
       d !! name = None → name ∉ fs.*1)
      ∧ (d !! name = Some (VBool true) ∨ (∃ s, d !! name = Some (VDict s)) →
         name ∈ fs.*1)
      ∧ (name ∉ default_deferred self → d !! name = None → name ∈ fs.*1).
Proof.
  intros Hrf Hl Hval Htg. eexists. split; [by eapply get_fields_ok|].
  intros name fld Hin.
  assert (name ∈ (all_fields self).*1) as Hname.
  { apply list_elem_of_fmap. by exists (name, fld). }
  erewrite get_fields_ok_keys; [|done|done|done|by eapply get_fields_ok].
  rewrite list_elem_of_filter. unfold excluded. split; [|split].
  - intros Hdef Hnone [Hex _]. rewrite Hnone in Hex. apply Hex.
    apply elem_of_default_deferred. by exists fld.
  - intros [Hd|[s Hd]]; rewrite Hd; done.
  - intros Hnd Hnone. by rewrite Hnone.
Qed.

Lemma deferred_unless_requested_witness :
  ∃ fs, @get_fields canonical_order Example.store
          (Example.serializer Example.person_meta Example.person_fields (VDict 1)) = Ok fs
        ∧ ("bio" ∉ fs.*1) ∧ "email" ∈ fs.*1 ∧ "age" ∈ fs.*1.
Proof.
  destruct (@deferred_unless_requested canonical_order Example.store
              (Example.serializer Example.person_meta Example.person_fields (VDict 1))
              1%positive {[ "email" := VBool true ]})
    as (fs & Hfs & Hall); [reflexivity | reflexivity | by_computation | reflexivity |].
  exists fs. split; [exact Hfs|]. split; [|split].
  - refine (proj1 (Hall "bio" (PlainField None) _) _ _);
      [by_computation | right; by_computation | reflexivity].
  - refine (proj1 (proj2 (Hall "email" (PlainField (Some true)) _)) _);
      [by_computation | left; reflexivity].
  - refine (proj2 (proj2 (Hall "age" (PlainField (Some false)) _)) _ _);
      [by_computation | by_computation | reflexivity].
Defined.

(** X12. A name of the include or exclude list that is not a serializer
    field is merged into the request map by [__init__], which succeeds, and
    is rejected by [get_fields] like a name of the map itself. *)
Lemma unknown_listed_name_rejected `{IterationOrder}
    m fields inc exc ctx (h : heap) l (d : pydict) n entity :
  h !! l = Some d → d ≠ ∅ → Meta.name m = Some entity →
  n ∈ list_or_context inc (ctx_include_fields ctx)
  ∨ n ∈ list_or_context exc (ctx_exclude_fields ctx) →
  n ∉ fields.*1 →
  ∃ self h' n',
    __init__ m fields inc exc (Some (VDict l)) ctx h = (Ok self, h')
    ∧ (n' ∉ fields.*1)
    ∧ get_fields h' self = Raise (ParseError (invalid_field_name n' entity)).
Proof.
  intros Hl Hd Hname Hn Hund.
  set (inc' := list_or_context inc (ctx_include_fields ctx)) in *.
  set (exc' := list_or_context exc (ctx_exclude_fields ctx)) in *.
  rewrite (init_dict m fields inc exc (Some (VDict l)) ctx h h l d); [|
    apply request_fields_or_context_arg; rewrite (truth_dict h l d Hl);
    by rewrite bool_decide_eq_true_2 | done].
  fold inc' exc'.
  set (self := {| meta := m; all_fields := fields; request_fields := VDict l;
                  include_fields := inc'; exclude_fields := exc' |}).
  destruct (first_unknown_exists self (merge_names inc' exc' d) n) as [n' Hn'].
  { apply elem_of_dom. rewrite merge_names_lookup.
    destruct Hn; repeat case_decide; eauto; done. }
  { unfold declared. by rewrite elem_of_list_to_set. }
  exists self, (<[l := merge_names inc' exc' d]> h), n'. split; [done|]. split.
  - apply first_unknown_Some in Hn' as [_ Hn']. unfold declared in Hn'.
    by rewrite elem_of_list_to_set in Hn'.
  - rewrite (get_fields_unknown _ self l _ n' eq_refl (lookup_insert_eq _ _ _) Hn').
    unfold get_name. cbn. by rewrite Hname.
Qed.

Lemma for_each_setitem_frame rf v names (h h' : heap) r l :
  for_each names (λ name, setitem rf name v) h = (r, h') →
  rf ≠ VDict l → h' !! l = h !! l.
Proof.
  intros Hrun Hne. revert h Hrun.
  induction names as [|k names IH]; intros h; cbn; [by intros [= _ <-]|].
  unfold mbind, M_bind. destruct (setitem rf k v h) as [[[]|e] h1] eqn:Hset.
  - intros Hrun. rewrite (IH h1 Hrun). unfold setitem in Hset.
    destruct rf as [b|l0]; [done|]. destruct (h !! l0); [|done].
    injection Hset as <-. apply lookup_insert_ne. congruence.
  - intros [= _ <-]. unfold setitem in Hset.
    destruct rf as [b|l0]; [congruence|]. destruct (h !! l0); congruence.
Qed.

Lemma request_fields_or_context_frame arg ctx (h h0 : heap) r l :
  request_fields_or_context arg ctx h = (r, h0) →
  is_Some (h !! l) → h0 !! l = h !! l.
Proof.
  intros Hrf Hl.
  unfold request_fields_or_context, truthy, mbind, M_bind, mret, M_ret, alloc_dict in Hrf.
  assert (fresh (dom h) ≠ l) as Hfresh.
  { intros <-. apply elem_of_dom in Hl. by apply is_fresh in Hl. }
  destruct arg as [v|]; [destruct (truth h v) as [[]|]|];
    destruct (ctx_request_fields ctx); simplify_eq/=; try done;
    by apply lookup_insert_ne.
Qed.

(** X11. The merge loops of [__init__] write one dictionary only: a
    nested request map that is another object is handed on as the caller
    made it. *)
Lemma init_frame m fields inc exc arg ctx (h h' : heap) self l :
  __init__ m fields inc exc arg ctx h = (Ok self, h') →
  request_fields self ≠ VDict l → is_Some (h !! l) → h' !! l = h !! l.
Proof.
  intros Hinit Hne Hl. unfold __init__ in Hinit.
  unfold mbind at 1, M_bind at 1 in Hinit.
  destruct (request_fields_or_context arg ctx h) as [[rf|e] h0] eqn:Hrf; [|done].
  unfold mbind at 1, M_bind at 1 in Hinit.
  destruct (for_each _ _ h0) as [[[]|e1] h1] eqn:Hinc; [|done].
  unfold mbind at 1, M_bind at 1 in Hinit.
  destruct (for_each _ _ h1) as [[[]|e2] h2] eqn:Hexc; [|done].
  injection Hinit as <- <-. cbn in Hne.
  rewrite (for_each_setitem_frame _ _ _ _ _ _ l Hexc Hne).
  rewrite (for_each_setitem_frame _ _ _ _ _ _ l Hinc Hne).
  by eapply request_fields_or_context_frame.
Qed.

(** C7. A request map that names something that is not a serializer field
    makes [get_fields] raise the ParseError, whose message holds an
    undeclared name of the map (the first one in iteration order, so the
    very name when it is the only undeclared one) and [Meta.name]. *)
Theorem unknown_field_rejected `{IterationOrder} (h : heap) self l (d : pydict) n entity :
  request_fields self = VDict l → h !! l = Some d →
  Meta.name (meta self) = Some entity →
  n ∈ dom d → n ∉ declared self →
  ∃ n', first_unknown self d = Some n' ∧ n' ∈ dom d ∧ (n' ∉ declared self)
        ∧ get_fields h self = Raise (ParseError (invalid_field_name n' entity))
        ∧ ((∀ k, k ∈ dom d → k ∉ declared self → k = n) → n' = n).
Proof.
  intros Hrf Hl Hname Hn Hund.
  destruct (first_unknown_exists self d n Hn Hund) as [n' Hn'].
  destruct (first_unknown_Some self d n' Hn') as [Hd' Hund'].
  exists n'. repeat split; try done.
  - rewrite (get_fields_unknown h self l d n' Hrf Hl Hn').
    unfold get_name. by rewrite Hname.
  - intros Honly. by apply Honly.
Qed.

Lemma unknown_field_rejected_witness :
  ∃ n', @get_fields canonical_order Example.store
          (Example.serializer Example.person_meta Example.person_fields (VDict 5))
        = Raise (ParseError (invalid_field_name n' "person"))
        ∧ n' ∈ dom ({[ "nickname" := VBool true; "zip" := VBool true ]} : pydict).
Proof.
  destruct (@unknown_field_rejected canonical_order Example.store
              (Example.serializer Example.person_meta Example.person_fields (VDict 5))
              5%positive {[ "nickname" := VBool true; "zip" := VBool true ]}
              "zip" "person")
    as (n' & _ & Hdom & _ & Hgf & _);
    [reflexivity | reflexivity | reflexivity | by_computation | by_computation |].
  exists n'. split; [exact Hgf | exact Hdom].
Defined.

(** C5. When the request map of a serializer names a field [b] with a
    nested request map, the field stays in the resolved field set and the
    target of a relational field [b] receives that very map as its
    [request_fields]: whatever else the parent's map holds, and whatever
    the parent's include and exclude lists are, does not reach it. *)
Theorem nested_request_reparented `{IterationOrder} (h : heap) self l (d : pydict) b sub :
  request_fields self = VDict l → h !! l = Some d →
  d !! b = Some (VDict sub) →
  dom d ⊆ declared self → targets_present (all_fields self) = true →
  ∃ fs, get_fields h self = Ok fs
        ∧ (∀ f, (b, f) ∈ all_fields self → (b, set_target f (VDict sub)) ∈ fs)
        ∧ (∀ fld, (b, fld) ∈ fs → is_relational fld = true →
                  target_request_fields fld = Some (VDict sub)).
Proof.
  intros Hrf Hl Hb Hval Htg.
  pose proof (get_fields_ok h self l d Hrf Hl Hval Htg) as Hgf.
  eexists. split; [exact Hgf|]. split.
  - intros f Hf. apply list_elem_of_fmap. exists (b, f). cbn. rewrite Hb. split; [done|].
    apply list_elem_of_filter. split; [|done]. unfold excluded. cbn. by rewrite Hb.
  - intros fld Hin Hrel.
    destruct (get_fields_relational h self _ b fld Hgf Hin Hrel)
      as (l' & d' & Hrf' & Hl' & _ & _ & ->).
    rewrite Hrf in Hrf'. injection Hrf' as <-. rewrite Hl in Hl'. injection Hl' as <-.
    by rewrite Hb.
Qed.

Lemma nested_request_reparented_witness :
  ∃ fs, @get_fields canonical_order Example.store
          (Example.serializer Example.post_meta Example.post_fields (VDict 3)) = Ok fs
        ∧ ("author", RelationField (Some false) (VDict 1)) ∈ fs.
Proof.
  destruct (@nested_request_reparented canonical_order Example.store
              (Example.serializer Example.post_meta Example.post_fields (VDict 3))
              3%positive {[ "author" := VDict 1; "title" := VBool false ]}
              "author" 1%positive)
    as (fs & Hfs & Hin & _);
    [reflexivity | reflexivity | reflexivity | by_computation | reflexivity |].
  exists fs. split; [exact Hfs|].
  apply (Hin (RelationField (Some false) (VBool false))). by_computation.
Defined.

(** C6. A relational field of the resolved field set whose directive is
    not a nested request map has [True] propagated to its target: never
    [False].  A serializer whose [request_fields] is that value represents
    an instance by its bare primary key. *)
Theorem default_child_request `{IterationOrder} {instance : Type}
    (pk : instance → pyval)
    (super_to_representation :
       heap → DynamicModelSerializer → instance → result (list (string * pyval)))
    (h : heap) self fs b fld :
  get_fields h self = Ok fs → (b, fld) ∈ fs → is_relational fld = true →
  target_request_fields fld ≠ Some (VBool false)
  ∧ (is_nested (directive h self b) = false →
     target_request_fields fld = Some (VBool true)
     ∧ ∀ h' child inst,
         Some (request_fields child) = target_request_fields fld →
         to_representation pk super_to_representation h' child inst = Ok (pk inst)).
Proof.
  intros Hgf Hin Hrel.
  destruct (get_fields_relational h self fs b fld Hgf Hin Hrel)
    as (l & d & Hrf & Hl & _ & Hex & Htarget).
  unfold excluded in Hex. unfold directive. rewrite Hrf, Hl. cbn.
  rewrite Htarget. destruct (d !! b) as [[[]|s]|]; cbn in *; try done.
  all: split; [done|]; intros _; split; [done|];
    intros h' child inst [= Hc]; unfold to_representation, id_only;
    by rewrite Hc.
Qed.

Lemma default_child_request_witness :
  @get_fields canonical_order Example.store
    (Example.serializer Example.post_meta Example.post_fields (VDict 2))
  = Ok [("title", PlainField None); ("author", RelationField (Some false) (VBool true))]
  ∧ to_representation Example.pk Example.super_to_representation Example.store
      (Example.serializer Example.person_meta Example.person_fields (VBool true)) 7%Z
    = Ok (PInt 7).
Proof.
  split; [by vm_compute|].
  refine (proj2 (proj2 (@default_child_request canonical_order Z Example.pk
            Example.super_to_representation Example.store
            (Example.serializer Example.post_meta Example.post_fields (VDict 2))
            [("title", PlainField None);
             ("author", RelationField (Some false) (VBool true))]
            "author" (RelationField (Some false) (VBool true)) _ _ _) _) _ _ _ _);
    [by vm_compute | by_computation | reflexivity | reflexivity | reflexivity].
Defined.

(** ** The claims about the representation *)

(** C8. Outside identifier-only mode, a representation that is produced
    is the framework's representation with two more keys: [_name] holds
    [Meta.plural_name] when it is defined and otherwise [Meta.name]
    followed by "s", and [_pk] holds the primary key of the instance.  It
    is produced whenever the framework's part succeeds and the name is
    defined. *)
Theorem metadata_stamped {instance : Type} (pk : instance → pyval)
    (super_to_representation :
       heap → DynamicModelSerializer → instance → result (list (string * pyval)))
    (h : heap) self inst :
  id_only self = false →
  (∀ entity base,
     Meta.name (meta self) = Some entity →
     super_to_representation h self inst = Ok base →
     to_representation pk super_to_representation h self inst
     = Ok (PDict (od_set "_pk" (pk inst)
                    (od_set "_name"
                       (PStr (default (entity +:+ "s") (Meta.plural_name (meta self))))
                       base))))
  ∧ (∀ r, to_representation pk super_to_representation h self inst = Ok r →
          ∃ rep entity,
            r = PDict rep ∧ Meta.name (meta self) = Some entity
            ∧ od_get "_name" rep
              = Some (PStr (default (entity +:+ "s") (Meta.plural_name (meta self))))
            ∧ od_get "_pk" rep = Some (pk inst)).
Proof.
  intros Hid. unfold to_representation, get_plural_name, get_name. rewrite Hid. split.
  - intros entity base -> ->. done.
  - intros r. destruct (super_to_representation h self inst) as [base|]; cbn; [|done].
    destruct (Meta.name (meta self)) as [entity|]; cbn; [|done].
    intros [= <-]. eexists _, entity. split; [done|]. split; [done|]. split.
    + rewrite od_get_set_ne by done. apply od_get_set_eq.
    + apply od_get_set_eq.
Qed.

Lemma metadata_stamped_witness :
  to_representation Example.pk Example.super_to_representation Example.store
    (Example.serializer Example.person_meta Example.person_fields (VDict 2)) 7%Z
  = Ok (PDict [("_name", PStr "people"); ("_pk", PInt 7)])
  ∧ to_representation Example.pk Example.super_to_representation Example.store
      (Example.serializer Example.post_meta Example.post_fields (VDict 2)) 8%Z
    = Ok (PDict [("_name", PStr "posts"); ("_pk", PInt 8)]).
Proof.
  split.
  - exact (proj1 (metadata_stamped Example.pk Example.super_to_representation
                    Example.store
                    (Example.serializer Example.person_meta Example.person_fields (VDict 2))
                    7%Z eq_refl) "person" [] eq_refl eq_refl).
  - exact (proj1 (metadata_stamped Example.pk Example.super_to_representation
                    Example.store
                    (Example.serializer Example.post_meta Example.post_fields (VDict 2))
                    8%Z eq_refl) "post" [] eq_refl eq_refl).
Defined.

(** C4. A serializer whose [request_fields] is [True] represents an
    instance by its primary key itself, whatever its fields and its Meta
    are, and resolves no field; constructing it from [True] alone yields
    such a serializer; and [id_only] holds exactly when [request_fields] is
    [True]. *)
Theorem identifier_only_short_circuit `{IterationOrder} {instance : Type}
    (pk : instance → pyval)
    (super_to_representation :
       heap → DynamicModelSerializer → instance → result (list (string * pyval)))
    (h : heap) m fields inc exc inst :
  to_representation pk super_to_representation h
    {| meta := m; all_fields := fields; request_fields := VBool true;
       include_fields := inc; exclude_fields := exc |} inst
  = Ok (pk inst)
  ∧ get_fields h
      {| meta := m; all_fields := fields; request_fields := VBool true;
         include_fields := inc; exclude_fields := exc |}
    = Ok []
  ∧ __init__ m fields None None (Some (VBool true)) empty_context h
    = (Ok {| meta := m; all_fields := fields; request_fields := VBool true;
             include_fields := []; exclude_fields := [] |}, h)
  ∧ ∀ self, id_only self = true ↔ request_fields self = VBool true.
Proof.
  split; [done|]. split; [done|]. split; [done|].
  intros self. unfold id_only. apply bool_decide_eq_true.
Qed.

Lemma identifier_only_short_circuit_witness :
  to_representation Example.pk Example.super_to_representation Example.store
    (Example.serializer Example.person_meta Example.person_fields (VBool true)) 7%Z
  = Ok (PInt 7).
Proof.
  exact (proj1 (@identifier_only_short_circuit canonical_order Z Example.pk
                  Example.super_to_representation Example.store
                  Example.person_meta Example.person_fields [] [] 7%Z)).
Defined.

(** ** The claims about construction *)

(** C9. Constructing a serializer from [request_fields=True] and a list
    of names to include or to exclude that is not empty raises a TypeError
    in the merge loop: no serializer is built, and no dictionary has been
    written. *)
Theorem identifier_only_with_names_raises m fields inc exc ctx (h : heap) :
  (list_or_context inc (ctx_include_fields ctx)
     ++ list_or_context exc (ctx_exclude_fields ctx))%list ≠ [] →
  __init__ m fields inc exc (Some (VBool true)) ctx h = (Raise TypeError, h).
Proof.
  intros Hne. unfold __init__.
  unfold mbind at 1, M_bind at 1.
  rewrite (request_fields_or_context_arg h ctx (VBool true) eq_refl).
  destruct (list_or_context inc _) as [|k ks]; [|done].
  destruct (list_or_context exc _) as [|k ks]; done.
Qed.

Lemma identifier_only_with_names_raises_witness :
  __init__ Example.person_meta Example.person_fields None (Some ["age"])
    (Some (VBool true)) empty_context Example.store
  = (Raise TypeError, Example.store).
Proof.
  apply identifier_only_with_names_raises. discriminate.
Defined.

Lemma for_each_setitem_raises rf v names (h h' : heap) e :
  for_each names (λ name, setitem rf name v) h = (Raise e, h') →
  e = TypeError ∨ ∃ l, e = DanglingReference l.
Proof.
  revert h. induction names as [|k names IH]; intros h; cbn; [done|].
  unfold mbind, M_bind. destruct (setitem rf k v h) as [[[]|e'] h1] eqn:Hset.
  - apply IH.
  - intros [= -> ->]. unfold setitem in Hset. destruct rf as [b|l].
    + left. congruence.
    + destruct (h !! l); [done|]. right. exists l. congruence.
Qed.

Lemma request_fields_or_context_raises arg ctx (h h' : heap) e :
  request_fields_or_context arg ctx h = (Raise e, h') → ∃ l, e = DanglingReference l.
Proof.
  unfold request_fields_or_context, truthy, mbind, M_bind.
  destruct arg as [[b|l]|]; cbn.
  - destruct b; [done|]. by destruct (ctx_request_fields ctx).
  - unfold deref. destruct (h !! l); cbn.
    + case_bool_decide; [done|]. by destruct (ctx_request_fields ctx).
    + intros [= <- _]. by exists l.
  - by destruct (ctx_request_fields ctx).
Qed.

Lemma init_raises m fields inc exc arg ctx (h h' : heap) e :
  __init__ m fields inc exc arg ctx h = (Raise e, h') →
  e = TypeError ∨ ∃ l, e = DanglingReference l.
Proof.
  unfold __init__. unfold mbind at 1, M_bind at 1.
  destruct (request_fields_or_context arg ctx h) as [[rf|e0] h0] eqn:Hrf.
  2: { intros [= -> _]. right. by eapply request_fields_or_context_raises. }
  unfold mbind at 1, M_bind at 1.
  destruct (for_each _ _ h0) as [[[]|e1] h1] eqn:Hinc.
  2: { intros [= -> _]. by eapply for_each_setitem_raises. }
  unfold mbind at 1, M_bind at 1.
  destruct (for_each _ _ h1) as [[[]|e2] h2] eqn:Hexc.
  2: { intros [= -> _]. by eapply for_each_setitem_raises. }
  done.
Qed.

(** When neither the argument nor the context supplies a request map, the
    serializer gets a new one and no dictionary of the store is written. *)
Lemma init_fresh m fields inc exc arg ctx (h : heap) :
  falsy h arg → ctx_request_fields ctx = None →
  __init__ m fields inc exc arg ctx h
  = (Ok {| meta := m; all_fields := fields;
           request_fields := VDict (fresh (dom h));
           include_fields := list_or_context inc (ctx_include_fields ctx);
           exclude_fields := list_or_context exc (ctx_exclude_fields ctx) |},
     <[fresh (dom h) :=
         merge_names (list_or_context inc (ctx_include_fields ctx))
                     (list_or_context exc (ctx_exclude_fields ctx)) ∅]> h).
Proof.
  intros Hf Hc.
  rewrite (init_dict m fields inc exc arg ctx h (<[fresh (dom h) := ∅]> h)
             (fresh (dom h)) ∅).
  - by rewrite insert_insert_eq.
  - by apply request_fields_or_context_fresh.
  - apply lookup_insert_eq.
Qed.

Lemma init_fresh_frame m fields inc exc arg ctx (h : heap) l self h' :
  falsy h arg → ctx_request_fields ctx = None → is_Some (h !! l) →
  __init__ m fields inc exc arg ctx h = (Ok self, h') → h' !! l = h !! l.
Proof.
  intros Hf Hc Hl. rewrite init_fresh by done. intros [= _ <-].
  apply lookup_insert_ne. intros <-.
  apply elem_of_dom in Hl. by apply is_fresh in Hl.
Qed.

(** C10 as the code has it.  Constructing a serializer whose Meta
    defines no name never raises for it, and succeeds when no request map
    is given; the AttributeError comes when the name is read, that is when
    an instance is represented outside identifier-only mode; in
    identifier-only mode the instance is represented by its primary key. *)
Theorem missing_name_raised_on_use {instance : Type} (pk : instance → pyval)
    (super_to_representation :
       heap → DynamicModelSerializer → instance → result (list (string * pyval)))
    m fields inc exc arg ctx (h : heap) inst :
  Meta.name m = None →
  (__init__ m fields inc exc arg ctx h).1 ≠ Raise AttributeError
  ∧ (arg = None → ctx_request_fields ctx = None →
     ∃ self h', __init__ m fields inc exc arg ctx h = (Ok self, h')
                ∧ meta self = m ∧ id_only self = false)
  ∧ ∀ self h', meta self = m →
      (id_only self = true →
       to_representation pk super_to_representation h' self inst = Ok (pk inst))
      ∧ (id_only self = false →
         (∃ base, super_to_representation h' self inst = Ok base) →
         to_representation pk super_to_representation h' self inst
         = Raise AttributeError).
Proof.
  intros Hname. split; [|split].
  - destruct (__init__ m fields inc exc arg ctx h) as [[self|e] h'] eqn:Hinit; [done|].
    cbn. apply init_raises in Hinit as [->|[l ->]]; done.
  - intros -> Hc. rewrite init_fresh by done. by eexists _, _.
  - intros self h' <-. unfold to_representation, get_plural_name, get_name. split.
    + by intros ->.
    + intros -> [base ->]. by rewrite Hname.
Qed.

Lemma missing_name_raised_on_use_witness :
  (__init__ Example.nameless_meta Example.person_fields None None None
     empty_context Example.store).1 ≠ Raise AttributeError
  ∧ to_representation Example.pk Example.super_to_representation Example.store
      (Example.serializer Example.nameless_meta Example.person_fields (VDict 2)) 7%Z
    = Raise AttributeError.
Proof.
  pose proof (missing_name_raised_on_use Example.pk Example.super_to_representation
                Example.nameless_meta Example.person_fields None None None
                empty_context Example.store 7%Z eq_refl) as (Hinit & _ & Hrep).
  split; [exact Hinit|].
  refine (proj2 (Hrep (Example.serializer Example.nameless_meta Example.person_fields
                         (VDict 2)) Example.store eq_refl) eq_refl _).
  by exists [].
Defined.

(** C10 as stated fails: a Meta without a name is accepted when the
    serializer is constructed, and the error is raised when an instance is
    represented. *)
Lemma nameless_schema_accepted_at_construction :
  ∃ self h',
    __init__ Example.nameless_meta Example.person_fields None None None
      empty_context Example.store = (Ok self, h')
    ∧ Meta.name (meta self) = None
    ∧ to_representation Example.pk Example.super_to_representation h' self 7%Z
      = Raise AttributeError.
Proof. eexists _, _. split; [by vm_compute|]. split; by vm_compute. Qed.

(** C2 as stated fails: the request map says [False] for "email", the
    include list names "email", and "email" is resolved. *)
Lemma include_list_beats_explicit_false :
  Example.store !! 4%positive = Some {[ "email" := VBool false ]}
  ∧ ∃ self h',
      __init__ Example.person_meta Example.person_fields (Some ["email"]) None
        (Some (VDict 4)) empty_context Example.store = (Ok self, h')
      ∧ @get_fields canonical_order h' self
        = Ok [("name", PlainField None); ("age", PlainField (Some false));
              ("email", PlainField (Some true))].
Proof. split; [done|]. eexists _, _. split; by vm_compute. Qed.

(** C2 as the code has it.  The include list is merged into the request
    map after the map was given and the exclude list after that: a field
    that the map marks [False] and the include list names is resolved,
    unless the exclude list names it too. *)
Theorem include_list_overrides_request_map `{IterationOrder}
    m fields inc exc ctx (h : heap) l (d : pydict) f :
  h !! l = Some d → d !! f = Some (VBool false) →
  f ∈ list_or_context inc (ctx_include_fields ctx) →
  dom (merge_names (list_or_context inc (ctx_include_fields ctx))
                   (list_or_context exc (ctx_exclude_fields ctx)) d)
    ⊆ list_to_set fields.*1 →
  targets_present fields = true →
  ∃ self h' fs,
    __init__ m fields inc exc (Some (VDict l)) ctx h = (Ok self, h')
    ∧ get_fields h' self = Ok fs
    ∧ (f ∈ fs.*1 ↔ f ∉ list_or_context exc (ctx_exclude_fields ctx)).
Proof.
  intros Hl Hf Hinc Hval Htg.
  set (inc' := list_or_context inc (ctx_include_fields ctx)) in *.
  set (exc' := list_or_context exc (ctx_exclude_fields ctx)) in *.
  assert (d ≠ ∅) as Hd by (intros ->; by rewrite lookup_empty in Hf).
  pose proof (init_dict m fields inc exc (Some (VDict l)) ctx h h l d) as Hinit.
  rewrite Hinit; [|apply request_fields_or_context_arg|done].
  2: { rewrite (truth_dict h l d Hl). by rewrite bool_decide_eq_true_2. }
  fold inc' exc'.
  set (self := {| meta := m; all_fields := fields; request_fields := VDict l;
                  include_fields := inc'; exclude_fields := exc' |}).
  set (h' := <[l := merge_names inc' exc' d]> h).
  assert (h' !! l = Some (merge_names inc' exc' d)) as Hl' by apply lookup_insert_eq.
  pose proof (get_fields_ok h' self l _ eq_refl Hl' Hval Htg) as Hgf.
  eexists self, h', _. split; [done|]. split; [exact Hgf|].
  rewrite (get_fields_ok_keys h' self l _ _ eq_refl Hl' Hval Hgf).
  rewrite list_elem_of_filter. unfold excluded. rewrite merge_names_lookup.
  assert (f ∈ fields.*1) as Hdecl.
  { assert (f ∈ dom (merge_names inc' exc' d)) as Hdom.
    { apply elem_of_dom. rewrite merge_names_lookup. repeat case_decide; eauto. }
    apply Hval in Hdom. by rewrite elem_of_list_to_set in Hdom. }
  destruct (decide (f ∈ exc')) as [Hexc|Hexc].
  - split; [intros [Hn _]; by destruct Hn | done].
  - rewrite decide_True by done. split; [done|]. intros _. split; [done|]. exact Hdecl.
Qed.

Lemma include_list_overrides_request_map_witness :
  ∃ self h' fs,
    __init__ Example.person_meta Example.person_fields (Some ["email"]) None
      (Some (VDict 4)) empty_context Example.store = (Ok self, h')
    ∧ @get_fields canonical_order h' self = Ok fs
    ∧ "email" ∈ fs.*1.
Proof.
  destruct (@include_list_overrides_request_map canonical_order
              Example.person_meta Example.person_fields (Some ["email"]) None
              empty_context Example.store 4%positive {[ "email" := VBool false ]}
              "email")
    as (self & h' & fs & Hinit & Hgf & Hiff);
    [reflexivity | reflexivity | by_computation | by_computation | reflexivity |].
  exists self, h', fs. split; [exact Hinit|]. split; [exact Hgf|].
  apply Hiff. by_computation.
Defined.

(** C3 as stated fails: after the construction the caller's request map
    holds the merged directives. *)
Lemma caller_request_map_mutated :
  Example.store !! 1%positive = Some {[ "email" := VBool true ]}
  ∧ ∃ self h',
      __init__ Example.person_meta Example.person_fields (Some ["name"]) (Some ["age"])
        (Some (VDict 1)) empty_context Example.store = (Ok self, h')
      ∧ request_fields self = VDict 1
      ∧ h' !! 1%positive
        = Some {[ "email" := VBool true; "name" := VBool true; "age" := VBool false ]}.
Proof. split; [done|]. eexists _, _. split; [by vm_compute|]. split; by vm_compute. Qed.

(** C3 as the code has it.  The serializer keeps the request map it is
    given (the argument when it is a dictionary that is not empty, else the
    one of the context) and the two merge loops write into that very
    object: afterwards it holds the merged directives, and no other
    dictionary of the store has changed. *)
Theorem merge_writes_request_map_in_place m fields inc exc arg ctx (h : heap) l (d : pydict) :
  (arg = Some (VDict l) ∧ d ≠ ∅)
  ∨ (falsy h arg ∧ ctx_request_fields ctx = Some (VDict l)) →
  h !! l = Some d →
  __init__ m fields inc exc arg ctx h
  = (Ok {| meta := m; all_fields := fields; request_fields := VDict l;
           include_fields := list_or_context inc (ctx_include_fields ctx);
           exclude_fields := list_or_context exc (ctx_exclude_fields ctx) |},
     <[l := merge_names (list_or_context inc (ctx_include_fields ctx))
                        (list_or_context exc (ctx_exclude_fields ctx)) d]> h).
Proof.
  intros Hcase Hl. apply init_dict; [|done].
  destruct Hcase as [[-> Hd]|[Hf Hc]].
  - apply request_fields_or_context_arg. rewrite (truth_dict h l d Hl).
    by rewrite bool_decide_eq_true_2.
  - by apply request_fields_or_context_inherited.
Qed.

Lemma merge_writes_request_map_in_place_witness :
  __init__ Example.person_meta Example.person_fields (Some ["name"]) (Some ["age"])
    (Some (VDict 1)) empty_context Example.store
  = (Ok {| meta := Example.person_meta; all_fields := Example.person_fields;
           request_fields := VDict 1;
           include_fields := ["name"]; exclude_fields := ["age"] |},
     <[1%positive := merge_names ["name"] ["age"] {[ "email" := VBool true ]}]>
       Example.store).
Proof.
  apply (merge_writes_request_map_in_place Example.person_meta Example.person_fields
           (Some ["name"]) (Some ["age"]) (Some (VDict 1)) empty_context
           Example.store 1%positive {[ "email" := VBool true ]}).
  - left. split; [reflexivity | by_computation].
  - reflexivity.
Defined.


(** * Further properties of the serializer *)

(** ** What [get_fields] returns and raises, for any request *)


Lemma set_target_relational f v : is_relational (set_target f v) = is_relational f.
Proof. by destruct f. Qed.


Lemma inject_request_raises h rf k f e :
  inject_request h rf k f = Raise e →
  e = AttributeError ∨ ∃ l, rf = VDict l ∧ h !! l = None ∧ e = DanglingReference l.
Proof.
  assert (∀ e, dict_get h rf k (VBool true) = Raise e →
            e = AttributeError
            ∨ ∃ l, rf = VDict l ∧ h !! l = None ∧ e = DanglingReference l) as Hget.
  { intros e'. destruct rf as [b|l]; cbn; [intros [= <-]; by left|].
    unfold deref. destruct (h !! l) eqn:Hl; cbn; [done|].
    intros [= <-]. right. by exists l. }
  intros Hinj.
  destruct (dict_get h rf k (VBool true)) as [v|e'] eqn:Hv;
    destruct f as [?|? ?|? ?|? ?|? [?|]]; cbn -[dict_get] in Hinj;
    rewrite ?Hv in Hinj; cbn in Hinj; simplify_eq;
    first [by left | by apply Hget].
Qed.

Lemma for_items_raises {A} (body : string → A → result A) (d : list (string * A)) e :
  for_items d body = Raise e → ∃ k v, (k, v) ∈ d ∧ body k v = Raise e.
Proof.
  induction d as [|[k v] d IH]; cbn; [done|].
  destruct (body k v) as [v'|e'] eqn:Hb; cbn.
  - destruct (for_items d body) as [d'|e'] eqn:Hd; cbn; [done|].
    intros [= <-]. destruct (IH eq_refl) as (k0 & v0 & ? & ?).
    exists k0, v0. split; [by right | done].
  - intros [= <-]. exists k, v. split; [left | done].
Qed.

Lemma override_fold_raises self fields items D e :
  for_fold items (apply_override self fields) D = Raise e →
  ∃ n, n ∈ items.*1 ∧ (n ∉ fields.*1)
       ∧ match Meta.name (meta self) with
         | Some entity => e = ParseError (invalid_field_name n entity)
         | None => e = AttributeError
         end.
Proof.
  revert D. induction items as [|[k v] items IH]; intros D; [done|].
  destruct (decide (k ∈ fields.*1)) as [Hk|Hk].
  - destruct (apply_override_valid self fields D k v Hk) as (D1 & HD1 & _).
    cbn -[apply_override]. rewrite HD1. cbn -[apply_override].
    intros (n & ? & ? & ?)%IH. exists n. split; [by right | done].
  - cbn. rewrite bool_decide_eq_true_2 by done. unfold get_name.
    intros He. exists k. split; [left|]. split; [done|].
    destruct (Meta.name (meta self)); cbn in He; by simplify_eq.
Qed.

Lemma override_fold_declared self fields items (D0 D : gset string) :
  (∀ x, x ∈ D0 → x ∈ fields.*1) →
  for_fold items (apply_override self fields) D0 = Ok D →
  ∀ x, x ∈ D → x ∈ fields.*1.
Proof.
  revert D0. induction items as [|[k v] items IH]; intros D0 HD0; cbn -[apply_override].
  - by intros [= <-].
  - destruct (decide (k ∈ fields.*1)) as [Hk|Hk].
    + destruct (apply_override_valid self fields D0 k v Hk) as (D1 & HD1 & Hmem).
      rewrite HD1. cbn -[apply_override]. apply IH.
      intros x [[-> _]|[_ ?]]%Hmem; [done | by apply HD0].
    + cbn. rewrite bool_decide_eq_true_2 by done. by destruct (get_name self).
Qed.

Section any_request.
Context `{IterationOrder}.

(** Outside identifier-only mode a resolved field set is the fields that
    are not excluded, each passed through the injection: on the request
    map when the serializer has one, on the defaults when its request is
    [False]. *)
Lemma get_fields_Ok_inv h self fs :
  get_fields h self = Ok fs → id_only self = false →
  ∃ d : pydict,
    (request_fields self = VBool false ∧ d = ∅
     ∨ ∃ l, request_fields self = VDict l ∧ h !! l = Some d ∧ dom d ⊆ declared self)
    ∧ for_items (filter (λ p, ¬ excluded self d p.1) (all_fields self))
                (inject_request h (request_fields self)) = Ok fs.
Proof.
  intros Hgf Hid. destruct (request_fields self) as [[]|l] eqn:Hrf.
  - unfold id_only in Hid. rewrite Hrf in Hid. done.
  - exists ∅. split; [by left|].
    unfold get_fields in Hgf. rewrite Hid, Hrf in Hgf.
    cbn -[for_items for_fold] in Hgf. rewrite pop_fold in Hgf.
    + cbn -[for_items] in Hgf. rewrite <- Hgf. f_equal. apply list_filter_iff.
      intros [k f]. cbn. unfold excluded. by rewrite elem_of_set_iter, lookup_empty.
    + apply set_iter_NoDup.
    + intros n Hn%elem_of_set_iter. by apply default_deferred_declared.
  - destruct (h !! l) as [d|] eqn:Hl.
    2: { unfold get_fields in Hgf. rewrite Hid, Hrf in Hgf.
         cbn in Hgf. unfold deref in Hgf. by rewrite Hl in Hgf. }
    destruct (first_unknown self d) as [n|] eqn:Hfu.
    { rewrite (get_fields_unknown h self l d n Hrf Hl Hfu) in Hgf.
      by destruct (get_name self). }
    apply first_unknown_None in Hfu. exists d. split; [right; by exists l|].
    by rewrite <- (get_fields_dict h self l d Hrf Hl (declared_valid self d Hfu)).
Qed.
End any_request.



(** X2. A name that the request map marks [False] is in no resolved field
    set, deferred by default or not. *)
Theorem false_directive_excludes `{IterationOrder} (h : heap) self fs k :
  get_fields h self = Ok fs → directive h self k = Some (VBool false) →
  k ∉ fs.*1.
Proof.
  intros Hgf Hdir Hk. unfold directive in Hdir.
  destruct (request_fields self) as [b|l] eqn:Hrf; [done|].
  destruct (h !! l) as [d|] eqn:Hl; [|done]. cbn in Hdir.
  assert (id_only self = false) as Hid.
  { unfold id_only. rewrite Hrf. done. }
  destruct (get_fields_Ok_inv h self fs Hgf Hid)
    as (d' & [[Hb _]|(l' & Hrf' & Hl' & _)] & Hitems); [congruence|].
  rewrite Hrf in Hrf'. injection Hrf' as <-. rewrite Hl in Hl'. injection Hl' as <-.
  rewrite (for_items_keys _ _ _ Hitems) in Hk.
  apply list_elem_of_fmap in Hk as ([k' f] & -> & [Hex _]%list_elem_of_filter).
  apply Hex. unfold excluded. cbn in *. by rewrite Hdir.
Qed.

Lemma false_directive_excludes_witness :
  "title" ∉ [("author", RelationField (Some false) (VDict 1))].*1.
Proof.
  apply (@false_directive_excludes canonical_order Example.store
           (Example.serializer Example.post_meta Example.post_fields (VDict 3))).
  - by vm_compute.
  - by vm_compute.
Defined.

(** X3. When the request map of the serializer is in the store,
    [get_fields] raises nothing but an AttributeError or the ParseError
    for a name of the map that is not a serializer field, with Meta.name
    in its message: removing the deferred fields never raises a KeyError,
    also when [Meta.deferred_fields] lists names that are no fields. *)
Theorem get_fields_raises_only `{IterationOrder} (h : heap) self e :
  (∀ l, request_fields self = VDict l → is_Some (h !! l)) →
  get_fields h self = Raise e →
  e = AttributeError
  ∨ ∃ n entity, Meta.name (meta self) = Some entity
                ∧ is_Some (directive h self n) ∧ (n ∉ declared self)
                ∧ e = ParseError (invalid_field_name n entity).
Proof.
  intros Hstore Hgf. unfold get_fields in Hgf.
  destruct (id_only self) eqn:Hid; [done|].
  assert (∀ sf, for_items sf (inject_request h (request_fields self)) = Raise e →
                e = AttributeError) as Hinject.
  { intros sf (k & f & _ & [->|(l & Hrf & Hl & _)]%inject_request_raises)%for_items_raises;
      [done|]. destruct (Hstore l Hrf) as [d Hd]. congruence. }
  assert (∀ D : gset string, (∀ x, x ∈ D → x ∈ (all_fields self).*1) →
            for_fold (set_iter D) (λ sf name, od_pop name sf) (all_fields self)
              ≫= (λ sf, for_items sf (inject_request h (request_fields self)))
            = Raise e → e = AttributeError) as Hrest.
  { intros D HD. rewrite pop_fold; [|apply set_iter_NoDup|].
    - cbn -[for_items]. apply Hinject.
    - intros n Hn%elem_of_set_iter. by apply HD. }
  destruct (request_fields self) as [[]|l] eqn:Hrf.
  - unfold id_only in Hid. by rewrite Hrf in Hid.
  - cbn -[for_items for_fold] in Hgf. left.
    apply (Hrest (default_deferred self)); [apply default_deferred_declared | done].
  - destruct (Hstore l eq_refl) as [d Hl].
    rewrite (truth_dict h l d Hl) in Hgf. cbn -[for_items for_fold] in Hgf.
    unfold deref in Hgf. rewrite Hl in Hgf.
    case_bool_decide as Hd; cbn -[for_items for_fold] in Hgf.
    + destruct (for_fold (iteritems d) _ _) as [D|e'] eqn:Hfold;
        cbn -[for_items for_fold] in Hgf.
      * left. apply (Hrest D); [|done].
        eapply override_fold_declared; [|exact Hfold].
        apply default_deferred_declared.
      * injection Hgf as ->.
        destruct (override_fold_raises _ _ _ _ _ Hfold) as (n & Hn & Hund & He).
        destruct (Meta.name (meta self)) as [entity|] eqn:Hname; [|by left].
        right. exists n, entity. split; [done|]. split; [|split; [|done]].
        -- unfold directive. rewrite Hrf, Hl. cbn.
           by apply elem_of_iteritems_keys.
        -- unfold declared. by rewrite elem_of_list_to_set.
    + left. apply (Hrest (default_deferred self));
        [apply default_deferred_declared | done].
Qed.

Lemma get_fields_raises_only_witness :
  let h : heap := {[ 1%positive := {[ "nickname" := VBool true ]} ]} in
  let self := Example.serializer Example.person_meta Example.person_fields (VDict 1) in
  let e := ParseError "'nickname' is not a valid field name for 'person'" in
  @get_fields canonical_order h self = Raise e
  ∧ (e = AttributeError
     ∨ ∃ n entity, Meta.name (meta self) = Some entity
                   ∧ is_Some (directive h self n) ∧ (n ∉ declared self)
                   ∧ e = ParseError (invalid_field_name n entity)).
Proof.
  intros h self e.
  assert (@get_fields canonical_order h self = Raise e) as Hgf by (by vm_compute).
  split; [exact Hgf|].
  apply (@get_fields_raises_only canonical_order h self e); [|exact Hgf].
  intros l [= <-]. by eexists.
Defined.

(** X4. When Meta defines no name, a request map with a name that is not
    a serializer field raises the AttributeError of the missing name
    instead of the ParseError: the message cannot be built. *)
Theorem unknown_field_without_name `{IterationOrder} (h : heap) self l (d : pydict) n :
  request_fields self = VDict l → h !! l = Some d →
  Meta.name (meta self) = None →
  n ∈ dom d → n ∉ declared self →
  get_fields h self = Raise AttributeError.
Proof.
  intros Hrf Hl Hname Hn Hund.
  destruct (first_unknown_exists self d n Hn Hund) as [n' Hn'].
  rewrite (get_fields_unknown h self l d n' Hrf Hl Hn').
  unfold get_name. by rewrite Hname.
Qed.

Lemma unknown_field_without_name_witness :
  @get_fields canonical_order Example.store
    (Example.serializer Example.nameless_meta Example.person_fields (VDict 5))
  = Raise AttributeError.
Proof.
  apply (@unknown_field_without_name canonical_order Example.store
           (Example.serializer Example.nameless_meta Example.person_fields (VDict 5))
           5%positive {[ "nickname" := VBool true; "zip" := VBool true ]} "zip");
    [reflexivity | reflexivity | reflexivity | by_computation | by_computation].
Defined.

(** X10. On an empty request map the resolved fields are the fields that
    are not deferred by default, and the target of every serializer or
    relation among them gets [True]: without a nested request a related
    object is represented by its primary key. *)
Theorem empty_request_resolves_defaults `{IterationOrder} (h : heap) self l :
  request_fields self = VDict l → h !! l = Some ∅ →
  targets_present (all_fields self) = true →
  get_fields h self
  = Ok ((λ p, (p.1, set_target p.2 (VBool true)))
          <$> filter (λ p, p.1 ∉ default_deferred self) (all_fields self)).
Proof.
  intros Hrf Hl Htg.
  rewrite (get_fields_ok h self l ∅ Hrf Hl); [|by rewrite dom_empty_L|done].
  reflexivity.
Qed.

Lemma empty_request_resolves_defaults_witness :
  @get_fields canonical_order Example.store
    (Example.serializer Example.post_meta Example.post_fields (VDict 2))
  = Ok [("title", PlainField None);
        ("author", RelationField (Some false) (VBool true))].
Proof.
  rewrite (@empty_request_resolves_defaults canonical_order Example.store
             (Example.serializer Example.post_meta Example.post_fields (VDict 2))
             2%positive); [by vm_compute | reflexivity | reflexivity | reflexivity].
Defined.

(** ** Stamping the representation *)

Lemma od_set_keys {A} k (v : A) (d : list (string * A)) :
  (od_set k v d).*1 = if decide (k ∈ d.*1) then d.*1 else (d.*1 ++ [k])%list.
Proof.
  induction d as [|[k' v'] d IH]; cbn.
  - rewrite decide_False; [done | by intros ?%elem_of_nil].
  - destruct (decide (k' = k)) as [->|Hne]; cbn.
    + rewrite decide_True; [done | left].
    + rewrite IH. destruct (decide (k ∈ d.*1)) as [Hin|Hin].
      * rewrite decide_True; [done | by right].
      * rewrite decide_False; [done|]. intros [?|?]%elem_of_cons; congruence.
Qed.

Lemma od_set_prefix {A} k (v : A) (d : list (string * A)) :
  d.*1 `prefix_of` (od_set k v d).*1.
Proof. rewrite od_set_keys. case_decide; [done | by apply prefix_app_r]. Qed.

Lemma elem_of_od_set_keys {A} k k' (v : A) (d : list (string * A)) :
  k' ∈ (od_set k v d).*1 ↔ k' ∈ d.*1 ∨ k' = k.
Proof.
  rewrite od_set_keys. case_decide as Hk.
  - split; [by left | intros [?| ->]; done].
  - rewrite elem_of_app, list_elem_of_singleton. done.
Qed.

(** X5. Stamping adds to what the framework's representation holds and
    takes nothing away: every key other than [_name] and [_pk] keeps its
    value, the keys of the framework's representation come first and in
    their order, and the only keys that can be new are the two reserved
    ones. *)
Theorem stamping_keeps_other_fields {instance : Type} (pk : instance → pyval)
    (super_to_representation :
       heap → DynamicModelSerializer → instance → result (list (string * pyval)))
    (h : heap) self inst entity base :
  id_only self = false → Meta.name (meta self) = Some entity →
  super_to_representation h self inst = Ok base →
  ∃ rep, to_representation pk super_to_representation h self inst = Ok (PDict rep)
         ∧ (∀ k, k ≠ "_name" → k ≠ "_pk" → od_get k rep = od_get k base)
         ∧ base.*1 `prefix_of` rep.*1
         ∧ (∀ k, k ∈ rep.*1 ↔ k ∈ base.*1 ∨ k = "_name" ∨ k = "_pk").
Proof.
  intros Hid Hname Hbase.
  unfold to_representation, get_plural_name, get_name. rewrite Hid, Hbase, Hname. cbn.
  eexists. split; [done|]. split; [|split].
  - intros k Hn Hp. by rewrite !od_get_set_ne.
  - etrans; apply od_set_prefix.
  - intros k. rewrite !elem_of_od_set_keys. tauto.
Qed.

Lemma stamping_keeps_other_fields_witness :
  ∃ rep, to_representation Example.pk
           (λ _ _ _, Ok [("title", PStr "t"); ("_pk", PNone); ("body", PStr "b")])
           Example.store
           (Example.serializer Example.post_meta Example.post_fields (VDict 2)) 8%Z
         = Ok (PDict rep)
         ∧ od_get "body" rep = Some (PStr "b")
         ∧ ["title"; "_pk"; "body"] `prefix_of` rep.*1.
Proof.
  destruct (stamping_keeps_other_fields Example.pk
              (λ _ _ _, Ok [("title", PStr "t"); ("_pk", PNone); ("body", PStr "b")])
              Example.store
              (Example.serializer Example.post_meta Example.post_fields (VDict 2))
              8%Z "post" [("title", PStr "t"); ("_pk", PNone); ("body", PStr "b")]
              eq_refl eq_refl eq_refl)
    as (rep & Hrep & Hget & Hpre & _).
  exists rep. split; [exact Hrep|]. split; [|exact Hpre].
  rewrite (Hget "body"); [reflexivity | discriminate | discriminate].
Defined.

(** ** Construction *)

(** X6. A boolean request inherited from the context is kept like a
    boolean argument: without names to include or exclude the serializer
    is constructed with it (identifier-only when it is [True]) and the
    store is not touched; with names the merge raises a TypeError, for
    [False] as for [True]. *)
Theorem boolean_request_from_context m fields inc exc arg ctx (h : heap) b :
  falsy h arg → ctx_request_fields ctx = Some (VBool b) →
  __init__ m fields inc exc arg ctx h
  = match (list_or_context inc (ctx_include_fields ctx)
           ++ list_or_context exc (ctx_exclude_fields ctx))%list with
    | [] => (Ok {| meta := m; all_fields := fields; request_fields := VBool b;
                   include_fields := []; exclude_fields := [] |}, h)
    | _ :: _ => (Raise TypeError, h)
    end.
Proof.
  intros Hf Hc. unfold __init__. unfold mbind at 1, M_bind at 1.
  rewrite (request_fields_or_context_inherited h ctx arg (VBool b) Hf Hc).
  destruct (list_or_context inc _) as [|k ks]; [|done].
  destruct (list_or_context exc _) as [|k ks]; done.
Qed.

Lemma boolean_request_from_context_witness :
  __init__ Example.person_meta Example.person_fields None None None
    {| ctx_request_fields := Some (VBool true); ctx_include_fields := None;
       ctx_exclude_fields := None |} Example.store
  = (Ok (Example.serializer Example.person_meta Example.person_fields (VBool true)),
     Example.store)
  ∧ __init__ Example.person_meta Example.person_fields (Some ["name"]) None None
      {| ctx_request_fields := Some (VBool false); ctx_include_fields := None;
         ctx_exclude_fields := None |} Example.store
    = (Raise TypeError, Example.store).
Proof.
  split.
  - exact (boolean_request_from_context Example.person_meta Example.person_fields
             None None None
             {| ctx_request_fields := Some (VBool true); ctx_include_fields := None;
                ctx_exclude_fields := None |} Example.store true I eq_refl).
  - exact (boolean_request_from_context Example.person_meta Example.person_fields
             (Some ["name"]) None None
             {| ctx_request_fields := Some (VBool false); ctx_include_fields := None;
                ctx_exclude_fields := None |} Example.store false I eq_refl).
Defined.

Lemma merge_names_idempotent inc exc (d : pydict) :
  merge_names inc exc (merge_names inc exc d) = merge_names inc exc d.
Proof.
  apply map_eq. intros k. rewrite !merge_names_lookup.
  by repeat case_decide.
Qed.

Lemma merge_names_nonempty inc exc (d : pydict) : d ≠ ∅ → merge_names inc exc d ≠ ∅.
Proof.
  intros (k & v & Hk)%map_choose Hempty.
  assert (is_Some (merge_names inc exc d !! k)) as [w Hw].
  { rewrite merge_names_lookup. repeat case_decide; eauto. }
  by rewrite Hempty, lookup_empty in Hw.
Qed.

(** X7. Constructing a serializer again, with the same arguments and on
    the request map that the first construction has written, yields the
    same serializer and writes nothing new. *)
Theorem construction_is_idempotent m fields inc exc ctx (h : heap) l (d : pydict) self h' :
  h !! l = Some d → d ≠ ∅ →
  __init__ m fields inc exc (Some (VDict l)) ctx h = (Ok self, h') →
  __init__ m fields inc exc (Some (VDict l)) ctx h' = (Ok self, h').
Proof.
  intros Hl Hd.
  set (inc' := list_or_context inc (ctx_include_fields ctx)).
  set (exc' := list_or_context exc (ctx_exclude_fields ctx)).
  rewrite (init_dict m fields inc exc (Some (VDict l)) ctx h h l d); [|
    apply request_fields_or_context_arg; rewrite (truth_dict h l d Hl);
    by rewrite bool_decide_eq_true_2 | done].
  intros [= <- <-]. fold inc' exc'.
  assert (<[l := merge_names inc' exc' d]> h !! l = Some (merge_names inc' exc' d))
    as Hl' by apply lookup_insert_eq.
  rewrite (init_dict m fields inc exc (Some (VDict l)) ctx
             (<[l := merge_names inc' exc' d]> h) (<[l := merge_names inc' exc' d]> h)
             l (merge_names inc' exc' d)); [|
    apply request_fields_or_context_arg; rewrite (truth_dict _ l _ Hl');
    rewrite bool_decide_eq_true_2; [done | by apply merge_names_nonempty] | exact Hl'].
  fold inc' exc'. by rewrite merge_names_idempotent, insert_insert_eq.
Qed.

Lemma construction_is_idempotent_witness :
  ∃ self h',
    __init__ Example.person_meta Example.person_fields (Some ["name"]) (Some ["age"])
      (Some (VDict 1)) empty_context Example.store = (Ok self, h')
    ∧ __init__ Example.person_meta Example.person_fields (Some ["name"]) (Some ["age"])
        (Some (VDict 1)) empty_context h' = (Ok self, h').
Proof.
  eexists _, _. split; [by vm_compute|].
  apply (construction_is_idempotent Example.person_meta Example.person_fields
           (Some ["name"]) (Some ["age"]) empty_context Example.store 1%positive
           {[ "email" := VBool true ]});
    [reflexivity | by_computation | by vm_compute].
Defined.

(** X8. Without a request map, from the argument or from the context,
    the two lists decide on top of the defaults: a serializer field is
    resolved exactly when the exclude list does not name it and either the
    include list names it or it is not deferred by default. *)
Theorem name_lists_without_request_map `{IterationOrder}
    m fields inc exc arg ctx (h : heap) :
  falsy h arg → ctx_request_fields ctx = None →
  (list_to_set (list_or_context inc (ctx_include_fields ctx)
                ++ list_or_context exc (ctx_exclude_fields ctx))%list : gset string)
    ⊆ list_to_set fields.*1 →
  targets_present fields = true →
  ∃ self h' fs,
    __init__ m fields inc exc arg ctx h = (Ok self, h')
    ∧ get_fields h' self = Ok fs
    ∧ ∀ k, k ∈ fs.*1 ↔
           k ∈ fields.*1
           ∧ (k ∉ list_or_context exc (ctx_exclude_fields ctx))
           ∧ (k ∈ list_or_context inc (ctx_include_fields ctx)
              ∨ k ∉ default_deferred self).
Proof.
  intros Hf Hc Hval Htg. rewrite init_fresh by done.
  set (inc' := list_or_context inc (ctx_include_fields ctx)) in *.
  set (exc' := list_or_context exc (ctx_exclude_fields ctx)) in *.
  set (l := fresh (dom h)).
  set (self := {| meta := m; all_fields := fields; request_fields := VDict l;
                  include_fields := inc'; exclude_fields := exc' |}).
  set (h' := <[l := merge_names inc' exc' ∅]> h).
  assert (h' !! l = Some (merge_names inc' exc' ∅)) as Hl' by apply lookup_insert_eq.
  assert (dom (merge_names inc' exc' ∅) ⊆ declared self) as Hdom.
  { intros k [v Hk]%elem_of_dom. apply Hval. rewrite merge_names_lookup in Hk.
    rewrite elem_of_list_to_set, elem_of_app.
    repeat case_decide; auto. by rewrite lookup_empty in Hk. }
  pose proof (get_fields_ok h' self l _ eq_refl Hl' Hdom Htg) as Hgf.
  eexists self, h', _. split; [done|]. split; [exact Hgf|]. intros k.
  rewrite (get_fields_ok_keys h' self l _ _ eq_refl Hl' Hdom Hgf).
  rewrite list_elem_of_filter. unfold excluded. rewrite merge_names_lookup.
  cbn [all_fields self]. repeat case_decide; rewrite ?lookup_empty; intuition congruence.
Qed.

Lemma name_lists_without_request_map_witness :
  ∃ self h' fs,
    __init__ Example.person_meta Example.person_fields (Some ["email"]) (Some ["age"])
      None empty_context Example.store = (Ok self, h')
    ∧ @get_fields canonical_order h' self = Ok fs
    ∧ "email" ∈ fs.*1 ∧ "name" ∈ fs.*1.
Proof.
  destruct (@name_lists_without_request_map canonical_order
              Example.person_meta Example.person_fields (Some ["email"]) (Some ["age"])
              None empty_context Example.store)
    as (self & h' & fs & Hinit & Hgf & Hiff);
    [exact I | reflexivity | by_computation | reflexivity |].
  exists self, h', fs. split; [exact Hinit|]. split; [exact Hgf|].
  assert (self = {| meta := Example.person_meta; all_fields := Example.person_fields;
                    request_fields := VDict (fresh (dom Example.store));
                    include_fields := ["email"]; exclude_fields := ["age"] |}) as ->.
  { rewrite init_fresh in Hinit by done. by injection Hinit as <- _. }
  split; apply Hiff.
  - split; [by_computation|]. split; [by_computation|]. left. by_computation.
  - split; [by_computation|]. split; [by_computation|]. right. by_computation.
Defined.

(** X9. An empty dictionary passed as [request_fields] is not the map the
    serializer keeps: it counts as no request, the context's request or a
    new dictionary is used, and whatever the construction does, the
    caller's empty dictionary stays empty. *)
Theorem empty_argument_map_untouched m fields inc exc ctx (h h' : heap) l r :
  h !! l = Some ∅ → ctx_request_fields ctx ≠ Some (VDict l) →
  __init__ m fields inc exc (Some (VDict l)) ctx h = (r, h') →
  h' !! l = Some ∅ ∧ ∀ self, r = Ok self → request_fields self ≠ VDict l.
Proof.
  intros Hl Hctx Hinit.
  assert (falsy h (Some (VDict l))) as Hf.
  { cbn. unfold deref. rewrite Hl. cbn. by rewrite bool_decide_eq_false_2 by auto. }
  assert (∃ rf h0, request_fields_or_context (Some (VDict l)) ctx h = (Ok rf, h0)
                   ∧ rf ≠ VDict l ∧ h0 !! l = Some ∅) as (rf & h0 & Hrf & Hne & Hl0).
  { destruct (ctx_request_fields ctx) as [v|] eqn:Hc.
    - exists v, h. split; [by apply request_fields_or_context_inherited|].
      split; [congruence | done].
    - eexists _, _. split; [by apply request_fields_or_context_fresh|].
      assert (fresh (dom h) ≠ l) as Hfresh.
      { intros <-. assert (fresh (dom h) ∈ dom h) as Hin by (apply elem_of_dom; eauto).
        by apply is_fresh in Hin. }
      split; [congruence|]. by rewrite lookup_insert_ne. }
  unfold __init__ in Hinit. unfold mbind at 1, M_bind at 1 in Hinit. rewrite Hrf in Hinit.
  unfold mbind at 1, M_bind at 1 in Hinit.
  destruct (for_each _ _ h0) as [[[]|e1] h1] eqn:Hinc.
  2: { injection Hinit as <- <-.
       rewrite (for_each_setitem_frame _ _ _ _ _ _ l Hinc Hne). by split. }
  unfold mbind at 1, M_bind at 1 in Hinit.
  destruct (for_each _ _ h1) as [[[]|e2] h2] eqn:Hexc.
  2: { injection Hinit as <- <-.
       rewrite (for_each_setitem_frame _ _ _ _ _ _ l Hexc Hne).
       rewrite (for_each_setitem_frame _ _ _ _ _ _ l Hinc Hne). by split. }
  injection Hinit as <- <-.
  rewrite (for_each_setitem_frame _ _ _ _ _ _ l Hexc Hne).
  rewrite (for_each_setitem_frame _ _ _ _ _ _ l Hinc Hne).
  split; [done|]. by intros self [= <-].
Qed.

Lemma empty_argument_map_untouched_witness :
  ∃ self h',
    __init__ Example.person_meta Example.person_fields (Some ["name"]) None
      (Some (VDict 2)) empty_context Example.store = (Ok self, h')
    ∧ h' !! 2%positive = Some ∅ ∧ request_fields self ≠ VDict 2.
Proof.
  eexists _, _. split; [by vm_compute|].
  destruct (empty_argument_map_untouched Example.person_meta Example.person_fields
              (Some ["name"]) None empty_context Example.store
              _ 2%positive _ eq_refl ltac:(discriminate) ltac:(by vm_compute))
    as [Hl Hrf].
  split; [exact Hl | by apply Hrf].
Defined.

Lemma init_frame_witness :
  ∃ self h',
    __init__ Example.post_meta Example.post_fields None (Some ["title"])
      (Some (VDict 3)) empty_context Example.store = (Ok self, h')
    ∧ h' !! 1%positive = Example.store !! 1%positive.
Proof.
  eexists _, _. split; [by vm_compute|].
  eapply (init_frame Example.post_meta Example.post_fields None (Some ["title"])
            (Some (VDict 3)) empty_context Example.store);
    [by vm_compute | discriminate | by eexists].
Defined.

Lemma unknown_listed_name_rejected_witness :
  ∃ self h' n',
    __init__ Example.person_meta Example.person_fields None (Some ["zip"])
      (Some (VDict 1)) empty_context Example.store = (Ok self, h')
    ∧ (n' ∉ Example.person_fields.*1)
    ∧ @get_fields canonical_order h' self
      = Raise (ParseError (invalid_field_name n' "person")).
Proof.
  apply (@unknown_listed_name_rejected canonical_order
           Example.person_meta Example.person_fields None (Some ["zip"])
           empty_context Example.store 1%positive {[ "email" := VBool true ]}
           "zip" "person");
    [reflexivity | by_computation | reflexivity | right; by_computation | by_computation].
Defined.
